(** * easy_thumbnails.models: cache-consistent record lookup

    A shallow embedding of [src/easy_thumbnails/models.py]: the module-level
    cache initialisation, the two managers ([FileManager], [ThumbnailManager])
    with their cache keys and [get_file], and the three tables ([Source],
    [Thumbnail], [ThumbnailDimensions]) with their [on_delete] policies.

    Python objects are records, the database is three lists of rows, the
    Django cache is a finite map from key strings to entries, and effectful
    code runs in a small monad that threads the world, may raise, and logs
    every call made to the cache, the ORM and the storage backend. *)

From Stdlib Require Import ZArith Lia.
From stdpp Require Import base strings gmap list pretty.

Local Open Scope Z_scope.

(** ** Data model *)

(** A [DateTimeField] value. Python [datetime] objects are always truthy, so
    [if update_modified:] tests exactly whether the argument was passed. *)
Definition datetime := Z.

(** A row of [Source] or [Thumbnail] (class [File], lines 95-121).
    [source_id] is [None] on [Source] rows, which have no such column. *)
Record File := mkFile {
  pk : Z;
  storage_hash : string;
  name : string;
  modified : datetime;
  source_id : option Z
}.

(** [ThumbnailDimensions] (lines 124-135). *)
Record ThumbnailDimensions := mkDims {
  dim_pk : Z;
  thumbnail_id : Z;
  width : option N;
  height : option N
}.

Definition size (d : ThumbnailDimensions) : option N * option N :=
  (width d, height d).

(** [str(v)] for a nullable [PositiveIntegerField]. *)
Definition str_option (v : option N) : string :=
  match v with
  | Some n => pretty n
  | None => "None"
  end.

(** Lines 130-131: ["%sx%s" % (self.width, self.height)]. *)
Definition ThumbnailDimensions_str (d : ThumbnailDimensions) : string :=
  str_option (width d) +:+ "x" +:+ str_option (height d).

(** Lines 106-107. *)
Definition File_str (r : File) : string := name r.

Record Database := mkDb {
  sources : list File;
  thumbnails : list File;
  dimensions : list ThumbnailDimensions
}.

(** [on_delete] policies of [django.db.models]. *)
Inductive on_delete := CASCADE | PROTECT | DO_NOTHING.

(** Line 115-116 and 125-126. *)
Definition Thumbnail_source_on_delete : on_delete := CASCADE.
Definition ThumbnailDimensions_thumbnail_on_delete : on_delete := CASCADE.

(** The two manager classes; [FileManager] serves [Source.objects],
    [ThumbnailManager] serves [Thumbnail.objects]. *)
Inductive manager := FileManager | ThumbnailManager.

Definition table (self : manager) (d : Database) : list File :=
  match self with
  | FileManager => sources d
  | ThumbnailManager => thumbnails d
  end.

Definition set_table (self : manager) (t : list File) (d : Database) : Database :=
  match self with
  | FileManager => mkDb t (thumbnails d) (dimensions d)
  | ThumbnailManager => mkDb (sources d) t (dimensions d)
  end.

(** The [**kwargs] dictionary of [get_file]: the keys the module itself
    reads or writes. [defaults] holds the [modified] entry when present. *)
Record Defaults := mkDefaults { d_modified : option datetime }.

Record Kwargs := mkKwargs {
  kw_storage_hash : option string;
  kw_name : option string;
  kw_source : option File;
  kw_defaults : option Defaults
}.

(** The storage backend: [utils.get_storage_hash(storage)] and
    [storage.exists(name)] are taken as given. *)
Record Storage := mkStorage {
  get_storage_hash : string;
  exists_ : string -> bool
}.

(** [easy_thumbnails.conf.settings]: [THUMBNAIL_CACHE] is a cache alias or
    [None]. *)
Record Settings := mkSettings {
  THUMBNAIL_CACHE : option string;
  THUMBNAIL_QUERYSET_CACHING : bool;
  THUMBNAIL_CACHE_DIMENSIONS : bool
}.

(** Python truthiness of [settings.THUMBNAIL_CACHE]: [None] and the empty
    string are false. *)
Definition truthy (o : option string) : bool :=
  match o with
  | Some s => negb (String.eqb s "")
  | None => false
  end.

(** A cache entry: the pickled object and the time at which it expires
    ([None]: never). *)
Record CacheEntry := mkEntry {
  ce_value : File;
  ce_expires : option datetime
}.

Definition live (clock : datetime) (e : CacheEntry) : bool :=
  match ce_expires e with
  | Some t => Z.ltb clock t
  | None => true
  end.

Record World := mkWorld {
  db : Database;
  cache : gmap string CacheEntry;
  now : datetime
}.

(** ** Exceptions, events and the effect monad *)

Inductive exn :=
| KeyError (key : string)
| ImportError
| ImproperlyConfigured (msg : string)
| DoesNotExist
| MultipleObjectsReturned
| IntegrityError
| FieldError (field : string)
| NameError (name : string)
| ProtectedError
| OtherError (what : string).

Inductive result (A : Type) :=
| Ok (a : A)
| Raise (e : exn).
Arguments Ok {A} a.
Arguments Raise {A} e.

(** Calls that leave the module. *)
Inductive event :=
| EvCacheGet (key : string)
| EvCacheSet (key : string) (obj : File) (timeout : option Z)
| EvCacheDelete (key : string)
| EvGet (self : manager) (select_related : bool) (kw : Kwargs)
| EvGetOrCreate (self : manager) (kw : Kwargs) (created : bool)
| EvUpdate (self : manager) (id : Z) (value : datetime)
| EvExists (name : string).

Definition is_cache_read (e : event) : bool :=
  match e with EvCacheGet _ => true | _ => false end.

Definition is_cache_write (e : event) : bool :=
  match e with EvCacheSet _ _ _ | EvCacheDelete _ => true | _ => false end.

Definition is_store_write (e : event) : bool :=
  match e with EvGetOrCreate _ _ _ | EvUpdate _ _ _ => true | _ => false end.

Definition is_update (e : event) : bool :=
  match e with EvUpdate _ _ _ => true | _ => false end.

Definition is_get_or_create (e : event) : bool :=
  match e with EvGetOrCreate _ _ _ => true | _ => false end.

Definition M (A : Type) : Type := World -> result A * World * list event.

Definition ret {A} (a : A) : M A := fun w => (Ok a, w, []).

Definition raise {A} (e : exn) : M A := fun w => (Raise e, w, []).

Definition bind {A B} (m : M A) (k : A -> M B) : M B := fun w =>
  match m w with
  | (Ok a, w1, t1) =>
      match k a w1 with
      | (r, w2, t2) => (r, w2, t1 ++ t2)
      end
  | (Raise e, w1, t1) => (Raise e, w1, t1)
  end.

Notation "x <- m ;; k" := (bind m (fun x => k))
  (at level 100, m at next level, right associativity).
Notation "m ;;; k" := (bind m (fun _ => k))
  (at level 100, right associativity).

Definition emit (e : event) : M unit := fun w => (Ok tt, w, [e]).

(** [try: m except DoesNotExist: h]. *)
Definition except_DoesNotExist {A} (m : M A) (h : M A) : M A := fun w =>
  match m w with
  | (Raise DoesNotExist, w1, t1) =>
      match h w1 with
      | (r, w2, t2) => (r, w2, t1 ++ t2)
      end
  | other => other
  end.

(** ** The cache backend *)

(** What [cache.get(key)] returns: the value of a live entry, else [None]. *)
Definition cache_lookup (key : string) (w : World) : option File :=
  match cache w !! key with
  | Some e => if live (now w) e then Some (ce_value e) else None
  | None => None
  end.

Definition cache_get (key : string) : M (option File) := fun w =>
  (Ok (cache_lookup key w), w, [EvCacheGet key]).

(** [cache.set(key, obj, timeout)]: any entry under [key] is replaced; a
    [timeout] of [None] stores an entry that never expires. *)
Definition cache_set (key : string) (obj : File) (timeout : option Z) : M unit :=
  fun w =>
    (Ok tt,
     mkWorld (db w)
             (<[key := mkEntry obj ((fun s => now w + s) <$> timeout)]> (cache w))
             (now w),
     [EvCacheSet key obj timeout]).

Definition cache_delete (key : string) : M unit := fun w =>
  (Ok tt, mkWorld (db w) (delete key (cache w)) (now w), [EvCacheDelete key]).

(** ** The ORM: [get], [get_or_create], [filter(pk=...).update(modified=...)]

    Django's queryset methods as the managers use them, run one after the
    other on the tables of the world. Failures of the connection to the
    database are not represented. *)

Definition opt_matches {A} (eqb : A -> A -> bool) (o : option A) (x : A) : bool :=
  match o with
  | Some y => eqb y x
  | None => true
  end.

(** Does a row satisfy the lookup [kwargs]? ([defaults] is not a lookup.) *)
Definition matches (kw : Kwargs) (r : File) : bool :=
  opt_matches String.eqb (kw_storage_hash kw) (storage_hash r)
  && opt_matches String.eqb (kw_name kw) (name r)
  && match kw_source kw with
     | Some s => match source_id r with
                 | Some i => Z.eqb (pk s) i
                 | None => false
                 end
     | None => true
     end.

(** [Source] has no [source] field: a lookup on it is a [FieldError]. *)
Definition check_fields (self : manager) (kw : Kwargs) : M unit :=
  match self, kw_source kw with
  | FileManager, Some _ => raise (FieldError "source")
  | _, _ => ret tt
  end.

Definition select (self : manager) (kw : Kwargs) : M File := fun w =>
  match filter (fun r => matches kw r = true) (table self (db w)) with
  | [] => (Raise DoesNotExist, w, [])
  | [r] => (Ok r, w, [])
  | _ => (Raise MultipleObjectsReturned, w, [])
  end.

Definition qs_get (self : manager) (select_related : bool) (kw : Kwargs) : M File :=
  emit (EvGet self select_related kw) ;;;
  check_fields self kw ;;;
  select self kw.

(** The key of an inserted row. The database hands out a key that no stored
    row has; which one is its own business (a sequence), and nothing below
    depends on the choice made here, one above every stored key. *)
Definition fresh_pk (t : list File) : Z :=
  1 + foldr (fun r acc => Z.max (pk r) acc) 0 t.

(** The foreign key of line 115: a thumbnail can only be inserted for a
    source whose row is stored. [Source] rows carry no foreign key. *)
Definition foreign_key_ok (self : manager) (kw : Kwargs) (d : Database) : bool :=
  match self with
  | FileManager => true
  | ThumbnailManager =>
      match kw_source kw with
      | Some s => existsb (fun s' => Z.eqb (pk s') (pk s)) (sources d)
      | None => false
      end
  end.

(** The row that [create], called with the lookups and the defaults,
    inserts: [modified] falls back to [timezone.now] (line 98), the
    [CharField]s to the empty string. *)
Definition new_row (kw : Kwargs) (t : list File) (clock : datetime) : File :=
  mkFile (fresh_pk t)
         (default "" (kw_storage_hash kw))
         (default "" (kw_name kw))
         (default clock (kw_defaults kw ≫= d_modified))
         (pk <$> kw_source kw).

(** The insert of [get_or_create]; the database refuses it with an
    [IntegrityError] when the foreign key has no target. *)
Definition insert_row (self : manager) (kw : Kwargs) : M File := fun w =>
  let r := new_row kw (table self (db w)) (now w) in
  if foreign_key_ok self kw (db w) then
    (Ok r,
     mkWorld (set_table self (table self (db w) ++ [r]) (db w)) (cache w) (now w),
     [])
  else (Raise IntegrityError, w, []).

Definition get_or_create (self : manager) (kw : Kwargs) : M (File * bool) := fun w =>
  match (check_fields self kw ;;; select self kw) w with
  | (Ok r, w1, _) => (Ok (r, false), w1, [EvGetOrCreate self kw false])
  | (Raise DoesNotExist, w1, _) =>
      match insert_row self kw w1 with
      | (Ok r, w2, _) => (Ok (r, true), w2, [EvGetOrCreate self kw true])
      | (Raise e, w2, _) => (Raise e, w2, [EvGetOrCreate self kw false])
      end
  | (Raise e, w1, _) => (Raise e, w1, [EvGetOrCreate self kw false])
  end.

Definition set_modified (value : datetime) (r : File) : File :=
  mkFile (pk r) (storage_hash r) (name r) value (source_id r).

Definition update_rows (id : Z) (value : datetime) (t : list File) : list File :=
  map (fun r => if Z.eqb (pk r) id then set_modified value r else r) t.

(** [self.filter(pk=id).update(modified=value)]. *)
Definition update_modified_field (self : manager) (id : Z) (value : datetime) : M unit :=
  fun w =>
    (Ok tt,
     mkWorld (set_table self (update_rows id value (table self (db w))) (db w))
             (cache w) (now w),
     [EvUpdate self id value]).

(** [storage.exists(name)]. *)
Definition storage_exists (storage : Storage) (name : string) : M bool := fun w =>
  (Ok (exists_ storage name), w, [EvExists name]).

(** [kwargs[key]]. *)
Definition getitem {A} (key : string) (o : option A) : M A :=
  match o with
  | Some a => ret a
  | None => raise (KeyError key)
  end.

Definition when (b : bool) (m : M unit) : M unit :=
  if b then m else ret tt.

(** ** The managers (lines 24-92) *)

Section Managers.

Variable settings : Settings.

(** The value of [get_version()]. *)
Variable version : string.

(** [settings.THUMBNAIL_CACHE and settings.THUMBNAIL_QUERYSET_CACHING]
    (lines 50, 66, 73). *)
Definition caching_enabled : bool :=
  truthy (THUMBNAIL_CACHE settings) && THUMBNAIL_QUERYSET_CACHING settings.

(** The f-string of line 28. *)
Definition FileManager_key (h n : string) : string :=
  "easy_thumbnails:" +:+ version +:+ ":FileManager:" +:+ h +:+ ":" +:+ n.

(** The f-string of line 87. *)
Definition ThumbnailManager_key (h n : string) (source_pk : Z) : string :=
  "easy_thumbnails:" +:+ version +:+ ":ThumbnailManager:" +:+ h +:+ ":" +:+ n
    +:+ ":" +:+ pretty source_pk.

Definition _get_cache_key (self : manager) (kwargs : Kwargs) : M string :=
  match self with
  | FileManager =>
      h <- getitem "storage_hash" (kw_storage_hash kwargs) ;;
      n <- getitem "name" (kw_name kwargs) ;;
      ret (FileManager_key h n)
  | ThumbnailManager =>
      h <- getitem "storage_hash" (kw_storage_hash kwargs) ;;
      n <- getitem "name" (kw_name kwargs) ;;
      s <- getitem "source" (kw_source kwargs) ;;
      ret (ThumbnailManager_key h n (pk s))
  end.

(** Lines 30-32. The global [cache] is bound only when
    [settings.THUMBNAIL_CACHE] is set (line 10). *)
Definition _delete_cache_key (self : manager) (kwargs : Kwargs) : M unit :=
  cache_key <- _get_cache_key self kwargs ;;
  if truthy (THUMBNAIL_CACHE settings) then cache_delete cache_key
  else raise (NameError "cache").

(** Lines 79-80 and 89-92: [true] stands for the queryset
    [self.select_related("dimensions")], [false] for [self]. *)
Definition _get_thumbnail_manager (self : manager) : bool :=
  match self with
  | FileManager => false
  | ThumbnailManager => THUMBNAIL_CACHE_DIMENSIONS settings
  end.

(** Lines 36-37. *)
Definition kwargs_update (kwargs : Kwargs) (h n : string) : Kwargs :=
  mkKwargs (Some h) (Some n) (kw_source kwargs) (kw_defaults kwargs).

(** Lines 42-43. *)
Definition set_default_modified (kwargs : Kwargs) (t : datetime) : Kwargs :=
  mkKwargs (kw_storage_hash kwargs) (kw_name kwargs) (kw_source kwargs)
           (Some (mkDefaults (Some t))).

(** Line 47. *)
Definition pop_defaults (kwargs : Kwargs) : Kwargs :=
  mkKwargs (kw_storage_hash kwargs) (kw_name kwargs) (kw_source kwargs) None.

(** Lines 40-67 of [get_file]: the create path and the read path. The
    result is [Some (obj, created)], or [None] for the bare [return] of
    line 64. *)
Definition resolve (self : manager) (storage : Storage) (name : string)
    (create : bool) (update_modified : option datetime)
    (check_cache_miss : bool) (kwargs : Kwargs) (cache_key : string)
    : M (option (File * bool)) :=
  if create then
    let kwargs :=
      match update_modified with
      | Some t => set_default_modified kwargs t
      | None => kwargs
      end in
    oc <- get_or_create self kwargs ;;
    ret (Some oc)
  else
    let kwargs := pop_defaults kwargs in
    obj <- (if caching_enabled then cache_get cache_key else ret None) ;;
    match obj with
    | Some o => ret (Some (o, false))
    | None =>
        r <- except_DoesNotExist
               (o <- qs_get self (_get_thumbnail_manager self) kwargs ;;
                ret (Some (o, false)))
               (if check_cache_miss then
                  found <- storage_exists storage name ;;
                  if found then
                    oc <- get_or_create self kwargs ;;
                    ret (Some oc)
                  else ret None
                else ret None) ;;
        match r with
        | Some (o, created) =>
            when caching_enabled (cache_set cache_key o None) ;;;
            ret (Some (o, created))
        | None => ret None
        end
    end.

(** Lines 69-77 of [get_file]. *)
Definition reconcile (self : manager) (update_modified : option datetime)
    (cache_key : string) (obj : File) (created : bool) : M File :=
  match update_modified with
  | Some t =>
      if negb created then
        if negb (Z.eqb (modified obj) t) then
          update_modified_field self (pk obj) t ;;;
          if caching_enabled then
            let obj := set_modified t obj in
            cache_set cache_key obj None ;;;
            ret obj
          else ret obj
        else ret obj
      else ret obj
  | None => ret obj
  end.

(** Lines 34-77. *)
Definition get_file (self : manager) (storage : Storage) (name : string)
    (create : bool) (update_modified : option datetime)
    (check_cache_miss : bool) (kwargs : Kwargs) : M (option File) :=
  let kwargs := kwargs_update kwargs (get_storage_hash storage) name in
  cache_key <- _get_cache_key self kwargs ;;
  r <- resolve self storage name create update_modified check_cache_miss
               kwargs cache_key ;;
  match r with
  | Some (obj, created) =>
      obj <- reconcile self update_modified cache_key obj created ;;
      ret (Some obj)
  | None => ret None
  end.

End Managers.

(** ** Module-level cache initialisation (lines 10-21) *)

(** What [django.core.cache] offers when the module is imported: the outcome
    of [from django.core.cache import caches], and of [caches[alias]], which
    yields the named backend with its current contents. *)
Record Django := mkDjango {
  import_caches : result unit;
  caches_getitem : string -> result (gmap string CacheEntry)
}.

(** The two [except] clauses of lines 14-21; any other exception leaves the
    [try] statement unchanged. *)
Definition reraise (e : exn) : exn :=
  match e with
  | ImportError =>
      ImproperlyConfigured
        "You are trying to use the cache on a version of Django that does not support caching"
  | KeyError _ =>
      ImproperlyConfigured
        "The cache specified in `THUMBNAIL_CACHE` doesn't seem to exist"
  | other => other
  end.

(** Importing [easy_thumbnails.models]: the global [cache] is bound to a
    backend ([Some]), left unbound ([None]), or the import fails. *)
Definition load_cache (settings : Settings) (django : Django)
    : result (option (gmap string CacheEntry)) :=
  match THUMBNAIL_CACHE settings with
  | Some alias =>
      if truthy (Some alias) then
        match import_caches django with
        | Ok _ =>
            match caches_getitem django alias with
            | Ok c => Ok (Some c)
            | Raise e => Raise (reraise e)
            end
        | Raise e => Raise (reraise e)
        end
      else Ok None
  | None => Ok None
  end.

(** One call of [get_file] with its arguments. *)
Record Call := mkCall {
  c_self : manager;
  c_storage : Storage;
  c_name : string;
  c_create : bool;
  c_update_modified : option datetime;
  c_check_cache_miss : bool;
  c_kwargs : Kwargs
}.

Fixpoint run_calls (settings : Settings) (version : string) (calls : list Call)
    (w : World) : list (result (option File)) * World * list event :=
  match calls with
  | [] => ([], w, [])
  | c :: rest =>
      match get_file settings version (c_self c) (c_storage c) (c_name c)
              (c_create c) (c_update_modified c) (c_check_cache_miss c)
              (c_kwargs c) w with
      | (r, w1, t1) =>
          match run_calls settings version rest w1 with
          | (rs, w2, t2) => (r :: rs, w2, t1 ++ t2)
          end
      end
  end.

(** A process that imports the module and then resolves [calls] in order. *)
Definition import_then_resolve (settings : Settings) (version : string)
    (django : Django) (d : Database) (clock : datetime) (calls : list Call)
    : result (list (result (option File)) * World) * list event :=
  match load_cache settings django with
  | Ok c =>
      match run_calls settings version calls (mkWorld d (default ∅ c) clock) with
      | (rs, w, t) => (Ok (rs, w), t)
      end
  | Raise e => (Raise e, [])
  end.

(** ** Deletion with the declared [on_delete] policies *)

(** What the ORM's collector does with the rows [related] to a row that is
    being deleted. *)
Definition on_related {A} (policy : on_delete) (related : list A)
    (cascade keep : result Database) : result Database :=
  match policy with
  | CASCADE => cascade
  | PROTECT => match related with [] => keep | _ => Raise ProtectedError end
  | DO_NOTHING => keep
  end.

(** [Thumbnail.delete()] for the row with primary key [id]. *)
Definition Thumbnail_delete (id : Z) (d : Database) : result Database :=
  let rest := filter (fun t => pk t ≠ id) (thumbnails d) in
  on_related ThumbnailDimensions_thumbnail_on_delete
    (filter (fun x => thumbnail_id x = id) (dimensions d))
    (Ok (mkDb (sources d) rest
              (filter (fun x => thumbnail_id x ≠ id) (dimensions d))))
    (Ok (mkDb (sources d) rest (dimensions d))).

Fixpoint Thumbnail_delete_all (ids : list Z) (d : Database) : result Database :=
  match ids with
  | [] => Ok d
  | id :: rest =>
      match Thumbnail_delete id d with
      | Ok d1 => Thumbnail_delete_all rest d1
      | Raise e => Raise e
      end
  end.

(** The thumbnails generated from the source with primary key [id]. *)
Definition thumbnails_of (id : Z) (d : Database) : list File :=
  filter (fun t => source_id t = Some id) (thumbnails d).

(** [Source.delete()] for the row with primary key [id]. *)
Definition Source_delete (id : Z) (d : Database) : result Database :=
  match on_related Thumbnail_source_on_delete (thumbnails_of id d)
          (Thumbnail_delete_all (pk <$> thumbnails_of id d) d) (Ok d) with
  | Ok d1 =>
      Ok (mkDb (filter (fun s => pk s ≠ id) (sources d1)) (thumbnails d1)
               (dimensions d1))
  | Raise e => Raise e
  end.

(** ** Vocabulary of the properties *)

(** The part of a key that follows the version tag. *)
Definition key_suffix (self : manager) (h n : string) (source_pk : Z) : string :=
  match self with
  | FileManager => ":FileManager:" +:+ h +:+ ":" +:+ n
  | ThumbnailManager =>
      ":ThumbnailManager:" +:+ h +:+ ":" +:+ n +:+ ":" +:+ pretty source_pk
  end.

(** A version tag such as [2.8.5] holds no colon (character 58). *)
Fixpoint colon_free (s : string) : bool :=
  match s with
  | EmptyString => true
  | String c rest => negb (Stdlib.Strings.Ascii.eqb c (Stdlib.Strings.Ascii.ascii_of_nat 58)) && colon_free rest
  end.

(** The keyword arguments fit the manager: a [source] for
    [Thumbnail.objects], none for [Source.objects]. *)
Definition well_formed (self : manager) (kwargs : Kwargs) : bool :=
  match self, kw_source kwargs with
  | FileManager, None => true
  | ThumbnailManager, Some _ => true
  | _, _ => false
  end.

(** The [source] passed to a lookup, if any, is a stored row of [Source]. *)
Definition source_is_stored (kwargs : Kwargs) (d : Database) : Prop :=
  forall s, kw_source kwargs = Some s ->
            exists s', s' ∈ sources d /\ pk s' = pk s.

(** [obj] is a row inserted into the table [t] for the lookups and defaults
    [kw]: its columns come from [kw], with [modified] falling back to the
    clock, and its key is one that no row of [t] has. *)
Definition is_new_row (kw : Kwargs) (clock : datetime) (t : list File)
    (obj : File) : Prop :=
  storage_hash obj = default "" (kw_storage_hash kw)
  /\ name obj = default "" (kw_name kw)
  /\ modified obj = default clock (kw_defaults kw ≫= d_modified)
  /\ source_id obj = pk <$> kw_source kw
  /\ pk obj ∉ pk <$> t.

(** The rows a lookup selects. *)
Definition selected (self : manager) (kw : Kwargs) (w : World) : list File :=
  filter (fun r => matches kw r = true) (table self (db w)).

(** Changing the contents of the cache and nothing else. *)
Definition on_cache (g : gmap string CacheEntry -> gmap string CacheEntry)
    (w : World) : World :=
  mkWorld (db w) (g (cache w)) (now w).

(** Running [m] in a world changed by [f] is running [m] and then changing
    the world by [f]: [m] neither observes nor undoes the change. *)
Definition commutes {A} (f : World -> World) (m : M A) : Prop :=
  forall w, m (f w) = match m w with (r, w1, t) => (r, f w1, t) end.

(** [g] leaves the entry under [key] alone. *)
Definition away_from (key : string)
    (g : gmap string CacheEntry -> gmap string CacheEntry) : Prop :=
  (forall c, g c !! key = c !! key)
  /\ (forall c e, g (<[key := e]> c) = <[key := e]> (g c)).

(** Every call [m] makes satisfies [P], whatever the world it starts in. *)
Definition emits_only {A} (P : event -> Prop) (m : M A) : Prop :=
  forall w, Forall P (m w).2.

(** Two rows agree on every column except possibly [modified]. *)
Definition same_but_modified (old new : File) : Prop :=
  pk new = pk old /\ storage_hash new = storage_hash old
  /\ name new = name old /\ source_id new = source_id old.

Definition count_events (P : event -> bool) (t : list event) : nat :=
  length (filter (fun e => P e = true) t).

Definition is_cache_event (e : event) : bool :=
  is_cache_read e || is_cache_write e.

(** ** Table constraints and further vocabulary *)

(** The columns named by [unique_together]: line 104 for [Source], line 121
    for [Thumbnail]. *)
Definition unique_key (self : manager) (r : File) : string * string * option Z :=
  match self with
  | FileManager => (storage_hash r, name r, None)
  | ThumbnailManager => (storage_hash r, name r, source_id r)
  end.

Definition unique_together (self : manager) (t : list File) : Prop :=
  NoDup (unique_key self <$> t).

(** Primary keys identify rows. *)
Definition distinct_pks (t : list File) : Prop := NoDup (pk <$> t).

(** Every foreign key points at a stored row (lines 115 and 125). *)
Definition referential_integrity (d : Database) : Prop :=
  (forall t, t ∈ thumbnails d ->
     exists s, s ∈ sources d /\ source_id t = Some (pk s))
  /\ (forall x, x ∈ dimensions d ->
       exists t, t ∈ thumbnails d /\ thumbnail_id x = pk t).

(** What one call of [get_file] with the source argument [src] can do to the
    database: nothing, one insert of a row for lookups that selected none, or
    one [update] of [modified]. *)
Definition db_step (self : manager) (src : option File) (clock : datetime)
    (d d' : Database) : Prop :=
  d' = d
  \/ (exists kw,
        filter (fun r => matches kw r = true) (table self d) = []
        /\ (self = FileManager -> kw_source kw = None)
        /\ kw_source kw = src
        /\ d' = set_table self
                  (table self d ++ [new_row kw (table self d) clock]) d)
  \/ (exists id value,
        d' = set_table self (update_rows id value (table self d)) d).

(** The outcome of [_get_cache_key] on the keyword arguments [get_file]
    builds from [kwargs], a storage hash and a name. *)
Definition derived_key (version : string) (self : manager) (kwargs : Kwargs)
    (h n : string) : result string :=
  match self, kw_source kwargs with
  | FileManager, _ => Ok (FileManager_key version h n)
  | ThumbnailManager, Some s => Ok (ThumbnailManager_key version h n (pk s))
  | ThumbnailManager, None => Raise (KeyError "source")
  end.

(** Lookups sent to the store or the storage backend. *)
Definition is_lookup (e : event) : bool :=
  match e with
  | EvGet _ _ _ | EvGetOrCreate _ _ _ | EvExists _ => true
  | _ => false
  end.

(** A string without the character [c]. *)
Fixpoint lacks (c : Ascii.ascii) (s : string) : bool :=
  match s with
  | EmptyString => true
  | String a rest => negb (Stdlib.Strings.Ascii.eqb a c) && lacks c rest
  end.

Definition colon : Ascii.ascii := Stdlib.Strings.Ascii.ascii_of_nat 58.
Definition letter_x : Ascii.ascii := Stdlib.Strings.Ascii.ascii_of_nat 120.

(** ** Sample data *)

Definition sample_storage : Storage :=
  mkStorage "7a3f" (fun n => String.eqb n "img.png").

(** A storage that has every file. *)
Definition full_storage : Storage := mkStorage "7a3f" (fun _ => true).

Definition caching_on : Settings := mkSettings (Some "default") true false.
Definition caching_off : Settings := mkSettings None true false.

Definition no_kwargs : Kwargs := mkKwargs None None None None.

Definition sample_source : File := mkFile 1 "7a3f" "img.png" 3 None.

Definition sample_key : string := "easy_thumbnails:2.8:FileManager:7a3f:img.png".

(** Nothing stored, nothing cached. *)
Definition empty_world : World := mkWorld (mkDb [] [] []) ∅ 100.

(** One source row, nothing cached. *)
Definition stored_world : World := mkWorld (mkDb [sample_source] [] []) ∅ 100.

(** An empty database next to a cache that still holds an entry. *)
Definition stale_world : World :=
  mkWorld (mkDb [] [] []) {[ sample_key := mkEntry sample_source None ]} 100.

(** The source row carries [modified = 5]; the entry under its key is a copy
    made when [modified] was 3. *)
Definition outdated_world : World :=
  mkWorld (mkDb [mkFile 1 "7a3f" "img.png" 5 None] [] [])
          {[ sample_key := mkEntry sample_source None ]} 100.

(** One source row, and under its key an entry that expired at time 50. *)
Definition expired_world : World :=
  mkWorld (mkDb [sample_source] [] [])
          {[ sample_key := mkEntry (mkFile 1 "7a3f" "img.png" 0 None) (Some 50) ]}
          100.

Definition sample_thumbnail : File :=
  mkFile 1 "7a3f" "img.png.100x100.jpg" 4 (Some 1).

Definition sample_dimensions : ThumbnailDimensions :=
  mkDims 1 1 (Some 100%N) (Some 100%N).

(** A source, a thumbnail of it and the thumbnail's dimensions. *)
Definition linked_world : World :=
  mkWorld (mkDb [sample_source] [sample_thumbnail] [sample_dimensions]) ∅ 100.

(** Two source rows for the same file, against [unique_together]. *)
Definition duplicate_world : World :=
  mkWorld (mkDb [sample_source; mkFile 2 "7a3f" "img.png" 8 None] [] []) ∅ 100.

(** The world [stored_world] after one cached read of the sample file. *)
Definition cached_world : World :=
  mkWorld (mkDb [sample_source] [] [])
          {[ sample_key := mkEntry sample_source None ]} 100.

(** * Properties *)

(** ** Cache keys *)

Lemma ascii_list_app (a b : string) :
  Stdlib.Strings.String.list_ascii_of_string (a +:+ b) =
  Stdlib.Strings.String.list_ascii_of_string a ++
  Stdlib.Strings.String.list_ascii_of_string b.
Proof. induction a as [|c a IH]; [done|]. cbn. by rewrite <- IH. Qed.

Lemma string_app_inj_r (a b s : string) : a +:+ s = b +:+ s -> a = b.
Proof.
  intros H.
  apply (f_equal Stdlib.Strings.String.list_ascii_of_string) in H.
  rewrite !ascii_list_app in H.
  apply app_inv_tail in H.
  rewrite <- (Stdlib.Strings.String.string_of_list_ascii_of_string a).
  rewrite <- (Stdlib.Strings.String.string_of_list_ascii_of_string b).
  by rewrite H.
Qed.

Lemma manager_tags_differ (a b : string) :
  ":FileManager:" +:+ a <> ":ThumbnailManager:" +:+ b.
Proof. cbv [String.append]. discriminate. Qed.

Lemma kinds_never_collide version h1 n1 h2 n2 p :
  FileManager_key version h1 n1 <> ThumbnailManager_key version h2 n2 p.
Proof.
  unfold FileManager_key, ThumbnailManager_key. intros H.
  do 2 apply (inj (String.app _)) in H.
  by apply manager_tags_differ in H.
Qed.

Lemma versions_never_collide v1 v2 suffix :
  v1 <> v2 ->
  "easy_thumbnails:" +:+ v1 +:+ suffix <> "easy_thumbnails:" +:+ v2 +:+ suffix.
Proof.
  intros Hne H. apply (inj (String.app _)) in H.
  by apply string_app_inj_r in H.
Qed.

(** With colon-free version tags the tag can be read back from the key, so
    keys of different versions differ whatever the rest of the lookup is. *)
Lemma colon_free_prefix_inj v1 v2 s1 s2 :
  colon_free v1 = true -> colon_free v2 = true ->
  v1 +:+ ":" +:+ s1 = v2 +:+ ":" +:+ s2 -> v1 = v2.
Proof.
  revert v2. induction v1 as [|c v1 IH]; intros [|c' v2]; cbn [colon_free];
    intros H1 H2 Heq; [done| | |].
  - cbv [String.append] in Heq. fold String.append in Heq.
    inversion Heq; subst. by rewrite Stdlib.Strings.Ascii.eqb_refl in H2.
  - cbv [String.append] in Heq. fold String.append in Heq.
    inversion Heq; subst. by rewrite Stdlib.Strings.Ascii.eqb_refl in H1.
  - cbv [String.append] in Heq. fold String.append in Heq.
    inversion Heq; subst.
    apply andb_true_iff in H1 as [_ H1]. apply andb_true_iff in H2 as [_ H2].
    f_equal. by apply (IH v2).
Qed.

Lemma key_suffix_starts_with_colon self h n p :
  exists rest, key_suffix self h n p = ":" +:+ rest.
Proof. destruct self; eexists; reflexivity. Qed.

(** X23: with version tags that hold no colon, keys derived under two
    different versions differ whatever the managers, storage hashes, names
    and sources are: no lookup under one version can read an entry written
    under another. *)
Lemma colon_free_versions_never_collide v1 v2 self1 h1 n1 p1 self2 h2 n2 p2 :
  colon_free v1 = true -> colon_free v2 = true -> v1 <> v2 ->
  "easy_thumbnails:" +:+ v1 +:+ key_suffix self1 h1 n1 p1
  <> "easy_thumbnails:" +:+ v2 +:+ key_suffix self2 h2 n2 p2.
Proof.
  intros H1 H2 Hne Heq. apply (inj (String.app _)) in Heq.
  destruct (key_suffix_starts_with_colon self1 h1 n1 p1) as [r1 Hr1].
  destruct (key_suffix_starts_with_colon self2 h2 n2 p2) as [r2 Hr2].
  rewrite Hr1, Hr2 in Heq. by apply colon_free_prefix_inj in Heq.
Qed.

(** [_get_cache_key] neither reads nor changes the world; on the keyword
    arguments [get_file] builds it fails only for a thumbnail lookup without
    a [source]. *)
Lemma _get_cache_key_run version self kwargs h n w :
  _get_cache_key version self (kwargs_update kwargs h n) w =
  (match self, kw_source kwargs with
   | FileManager, _ => Ok (FileManager_key version h n)
   | ThumbnailManager, Some s => Ok (ThumbnailManager_key version h n (pk s))
   | ThumbnailManager, None => Raise (KeyError "source")
   end, w, []).
Proof. destruct self, kwargs as [? ? [s|] ?]; reflexivity. Qed.

Lemma _get_cache_key_suffix version self kwargs h n w key w1 t :
  _get_cache_key version self (kwargs_update kwargs h n) w = (Ok key, w1, t) ->
  exists p, key = "easy_thumbnails:" +:+ version +:+ key_suffix self h n p
            /\ forall v w', _get_cache_key v self (kwargs_update kwargs h n) w' =
                            (Ok ("easy_thumbnails:" +:+ v +:+ key_suffix self h n p), w', []).
Proof.
  rewrite _get_cache_key_run. intros H.
  destruct self; [exists 0 | destruct (kw_source kwargs) as [s|] eqn:Hs].
  - split; [by inversion H|]. intros. by rewrite _get_cache_key_run.
  - exists (pk s). split; [by inversion H|].
    intros. by rewrite _get_cache_key_run, Hs.
  - inversion H.
Qed.

(** C5: for one storage hash and one name, the key [ThumbnailManager] derives
    (whatever the parent source) is never the key [FileManager] derives. *)
Theorem thumbnail_and_source_keys_differ version h n (source : File)
    (o : option File) (d1 d2 : option Defaults) (w1 w2 : World) :
  exists k1 k2,
    _get_cache_key version FileManager (mkKwargs (Some h) (Some n) o d1) w1
      = (Ok k1, w1, [])
    /\ _get_cache_key version ThumbnailManager
         (mkKwargs (Some h) (Some n) (Some source) d2) w2
       = (Ok k2, w2, [])
    /\ k1 <> k2.
Proof.
  exists (FileManager_key version h n),
         (ThumbnailManager_key version h n (pk source)).
  repeat split. apply kinds_never_collide.
Qed.

(** ** Changes of the cache that a computation does not notice *)

Section Commutes.

Context {A B : Type} (f : World -> World).

Lemma commutes_ret (a : A) : commutes f (ret a).
Proof. done. Qed.

Lemma commutes_raise (e : exn) : commutes f (@raise A e).
Proof. done. Qed.

Lemma commutes_emit (e : event) : commutes f (emit e).
Proof. done. Qed.

(** The continuation only matters at the values [m] can return. *)
Lemma commutes_bind_returned (m : M A) (k : A -> M B) :
  commutes f m ->
  (forall a w w1 t, m w = (Ok a, w1, t) -> commutes f (k a)) ->
  commutes f (bind m k).
Proof.
  intros Hm Hk w. unfold bind. rewrite Hm.
  destruct (m w) as [[[a|e] w1] t1] eqn:Hrun; [|done].
  rewrite (Hk a w w1 t1 Hrun). by destruct (k a w1) as [[r w2] t2].
Qed.

Lemma commutes_bind (m : M A) (k : A -> M B) :
  commutes f m -> (forall a, commutes f (k a)) -> commutes f (bind m k).
Proof. intros Hm Hk. apply commutes_bind_returned; auto. Qed.

Lemma commutes_except (m h : M A) :
  commutes f m -> commutes f h -> commutes f (except_DoesNotExist m h).
Proof.
  intros Hm Hh w. unfold except_DoesNotExist. rewrite Hm.
  destruct (m w) as [[[a|e] w1] t1]; [done|].
  destruct e; try done.
  rewrite Hh. by destruct (h w1) as [[r w2] t2].
Qed.

End Commutes.

Section Frame.

Variable g : gmap string CacheEntry -> gmap string CacheEntry.

Lemma commutes_storage_exists storage name :
  commutes (on_cache g) (storage_exists storage name).
Proof. done. Qed.

Lemma commutes_check_fields self kw : commutes (on_cache g) (check_fields self kw).
Proof. intros w. unfold check_fields. by destruct self, (kw_source kw). Qed.

Lemma commutes_select self kw : commutes (on_cache g) (select self kw).
Proof.
  intros w. unfold select. cbn [on_cache db].
  by destruct (filter _ _) as [|r [|r' l]].
Qed.

Lemma commutes_qs_get self sr kw : commutes (on_cache g) (qs_get self sr kw).
Proof.
  unfold qs_get.
  repeat (apply commutes_bind; [|intros ?]);
    auto using commutes_emit, commutes_check_fields, commutes_select.
Qed.

Lemma commutes_insert_row self kw : commutes (on_cache g) (insert_row self kw).
Proof.
  intros w. unfold insert_row. cbn [on_cache db].
  by destruct (foreign_key_ok self kw (db w)).
Qed.

Lemma commutes_get_or_create self kw :
  commutes (on_cache g) (get_or_create self kw).
Proof.
  intros w. unfold get_or_create.
  rewrite (commutes_bind (on_cache g) _ _ (commutes_check_fields self kw)
             (fun _ => commutes_select self kw) w).
  destruct ((check_fields self kw;;; select self kw) w) as [[[r|e] w1] t1]; [done|].
  destruct e; try done.
  rewrite commutes_insert_row.
  by destruct (insert_row self kw w1) as [[[r|e] w2] t2].
Qed.

Lemma commutes_update_modified_field self id value :
  commutes (on_cache g) (update_modified_field self id value).
Proof. done. Qed.

Lemma commutes_cache_get key : away_from key g -> commutes (on_cache g) (cache_get key).
Proof. intros [Hget _] w. unfold cache_get, cache_lookup. cbn. by rewrite Hget. Qed.

Lemma commutes_cache_set key obj timeout :
  away_from key g -> commutes (on_cache g) (cache_set key obj timeout).
Proof. intros [_ Hset] w. unfold cache_set, on_cache. cbn. by rewrite Hset. Qed.

Hint Resolve commutes_ret commutes_raise commutes_emit commutes_storage_exists
  commutes_check_fields commutes_select commutes_qs_get commutes_insert_row
  commutes_get_or_create commutes_update_modified_field commutes_cache_get
  commutes_cache_set : core.

Ltac commute :=
  repeat first
    [ apply commutes_bind; [|intros ?]
    | apply commutes_except
    | progress auto
    | match goal with
      | |- commutes _ (match ?x with _ => _ end) => destruct x
      | |- commutes _ (if ?b then _ else _) => destruct b
      | |- commutes _ (let _ := _ in _) => cbv zeta
      end ].

Variables (settings : Settings) (key : string).
Hypothesis Hkey : caching_enabled settings = true -> away_from key g.

Lemma commutes_resolve self storage name create um ccm kwargs :
  commutes (on_cache g)
    (resolve settings self storage name create um ccm kwargs key).
Proof.
  unfold resolve, when.
  destruct (caching_enabled settings); [specialize (Hkey eq_refl)|]; commute.
Qed.

Lemma commutes_reconcile self um obj created :
  commutes (on_cache g) (reconcile settings self um key obj created).
Proof.
  unfold reconcile.
  destruct (caching_enabled settings); [specialize (Hkey eq_refl)|]; commute.
Qed.

End Frame.

Lemma commutes_get_cache_key f version self kwargs h n :
  commutes f (_get_cache_key version self (kwargs_update kwargs h n)).
Proof. intros w. by rewrite !_get_cache_key_run. Qed.

Lemma commutes_get_file g settings version self storage name create um ccm kwargs :
  (caching_enabled settings = true ->
   forall key w,
     _get_cache_key version self
       (kwargs_update kwargs (get_storage_hash storage) name) w = (Ok key, w, []) ->
     away_from key g) ->
  commutes (on_cache g)
    (get_file settings version self storage name create um ccm kwargs).
Proof.
  intros Hkey. unfold get_file. cbv zeta.
  apply commutes_bind_returned; [apply commutes_get_cache_key|].
  intros key w w1 t Hrun.
  assert (Hkey' : caching_enabled settings = true -> away_from key g).
  { intros Hon. apply (Hkey Hon key w).
    rewrite _get_cache_key_run in Hrun |- *. by inversion Hrun. }
  apply commutes_bind; [by apply commutes_resolve|].
  intros [[obj created]|]; [|apply commutes_ret].
  apply commutes_bind; [by apply commutes_reconcile|intros; apply commutes_ret].
Qed.

(** ** What a computation may emit *)

Section Emits.

Context {A B : Type} (P : event -> Prop).

Lemma emits_ret (a : A) : emits_only P (ret a).
Proof. intros w. constructor. Qed.

Lemma emits_raise (e : exn) : emits_only P (@raise A e).
Proof. intros w. constructor. Qed.

Lemma emits_emit (e : event) : P e -> emits_only P (emit e).
Proof. intros He w. by repeat constructor. Qed.

Lemma emits_bind (m : M A) (k : A -> M B) :
  emits_only P m -> (forall a, emits_only P (k a)) -> emits_only P (bind m k).
Proof.
  intros Hm Hk w. unfold bind. specialize (Hm w).
  destruct (m w) as [[[a|e] w1] t1]; [|done].
  specialize (Hk a w1). destruct (k a w1) as [[r w2] t2]. cbn in *.
  by apply Forall_app.
Qed.

Lemma emits_except (m h : M A) :
  emits_only P m -> emits_only P h -> emits_only P (except_DoesNotExist m h).
Proof.
  intros Hm Hh w. unfold except_DoesNotExist. specialize (Hm w).
  destruct (m w) as [[[a|e] w1] t1]; [done|].
  destruct e; try done.
  specialize (Hh w1). destruct (h w1) as [[r w2] t2]. cbn in *.
  by apply Forall_app.
Qed.

Lemma emits_storage_exists storage name :
  P (EvExists name) -> emits_only P (storage_exists storage name).
Proof. intros He w. by repeat constructor. Qed.

Lemma emits_cache_get key : P (EvCacheGet key) -> emits_only P (cache_get key).
Proof. intros He w. by repeat constructor. Qed.

Lemma emits_cache_set key obj timeout :
  P (EvCacheSet key obj timeout) -> emits_only P (cache_set key obj timeout).
Proof. intros He w. by repeat constructor. Qed.

Lemma emits_update_modified_field self id value :
  P (EvUpdate self id value) -> emits_only P (update_modified_field self id value).
Proof. intros He w. by repeat constructor. Qed.

End Emits.

Lemma check_fields_cases self kw w :
  (check_fields self kw w = (Ok tt, w, [])
   /\ (self = FileManager -> kw_source kw = None))
  \/ check_fields self kw w = (Raise (FieldError "source"), w, []).
Proof.
  unfold check_fields.
  destruct self, (kw_source kw); [by right|left..]; by split.
Qed.

Lemma emits_qs_get P self sr kw :
  P (EvGet self sr kw) -> emits_only P (qs_get self sr kw).
Proof.
  intros He w. unfold qs_get, bind, emit, check_fields, select, raise, ret.
  destruct self, (kw_source kw); cbn;
    try destruct (filter _ _) as [|r [|r' l]]; cbn; by repeat constructor.
Qed.

Lemma emits_get_or_create P self kw :
  (forall created, P (EvGetOrCreate self kw created)) ->
  emits_only P (get_or_create self kw).
Proof.
  intros He w. unfold get_or_create.
  destruct (bind _ _ w) as [[[r|e] w1] t1]; [by repeat constructor|].
  destruct e; try by repeat constructor.
  destruct (insert_row self kw w1) as [[[r|e] w2] t2]; by repeat constructor.
Qed.

(** ** Cache keys and schema versions *)

Lemma insert_away_from (k1 k2 : string) (entry : CacheEntry) :
  k1 <> k2 -> away_from k2 (insert k1 entry).
Proof.
  intros Hne. split; intros.
  - by apply lookup_insert_ne.
  - by apply insert_insert_ne.
Qed.

(** C6: the key starts with the version tag followed by a suffix that does
    not depend on it, so under another version the same lookup derives another
    key, and [get_file] under the new version runs exactly as if the entry
    written under the old version were not there: same result, same database,
    same calls, and the old entry is left where it was. *)
Theorem entries_of_another_version_are_never_read
    settings v1 v2 self storage name create update_modified check_cache_miss
    kwargs k1 entry w :
  v1 <> v2 ->
  _get_cache_key v1 self
    (kwargs_update kwargs (get_storage_hash storage) name) w = (Ok k1, w, []) ->
  (exists suffix k2,
      k1 = "easy_thumbnails:" +:+ v1 +:+ suffix
      /\ k2 = "easy_thumbnails:" +:+ v2 +:+ suffix
      /\ _get_cache_key v2 self
           (kwargs_update kwargs (get_storage_hash storage) name) w = (Ok k2, w, [])
      /\ k1 <> k2)
  /\ get_file settings v2 self storage name create update_modified
       check_cache_miss kwargs (on_cache (insert k1 entry) w)
     = match get_file settings v2 self storage name create update_modified
               check_cache_miss kwargs w with
       | (r, wf, evs) => (r, on_cache (insert k1 entry) wf, evs)
       end.
Proof.
  intros Hv Hk1.
  destruct (_get_cache_key_suffix _ _ _ _ _ _ _ _ _ Hk1) as (p & -> & Hall).
  split.
  - eexists _, _. repeat split; [apply Hall|].
    by apply versions_never_collide.
  - apply commutes_get_file. intros _ k2 w' Hk2.
    rewrite Hall in Hk2. inversion Hk2; subst k2.
    apply insert_away_from. by apply versions_never_collide.
Qed.

Lemma entries_of_another_version_witness :
  get_file caching_on "2.9" FileManager sample_storage "img.png" false None
    false no_kwargs stale_world
  = (Ok None, stale_world,
     [EvCacheGet "easy_thumbnails:2.9:FileManager:7a3f:img.png";
      EvGet FileManager false (mkKwargs (Some "7a3f") (Some "img.png") None None)]).
Proof.
  pose proof (entries_of_another_version_are_never_read caching_on "2.8" "2.9"
    FileManager sample_storage "img.png" false None false no_kwargs sample_key
    (mkEntry sample_source None) empty_world) as H.
  destruct H as [_ H]; [discriminate | reflexivity |].
  etrans; [exact H|]. vm_compute. reflexivity.
Defined.

(** ** The calls [get_file] can make *)

Ltac emits :=
  repeat first
    [ apply emits_qs_get
    | apply emits_get_or_create
    | apply emits_storage_exists
    | apply emits_cache_get
    | apply emits_cache_set
    | apply emits_update_modified_field
    | apply emits_except
    | apply emits_ret
    | apply emits_raise
    | apply emits_bind; [|intros ?]
    | progress auto
    | match goal with
      | |- emits_only _ (match ?x with _ => _ end) => destruct x
      | |- emits_only _ (if ?b then _ else _) => destruct b eqn:?
      end ].

Section EmitsResolve.

Variables (P : event -> Prop) (settings : Settings) (self : manager)
  (storage : Storage) (name : string) (create : bool) (key : string).

Hypothesis P_get : forall sr kw, P (EvGet self sr kw).
Hypothesis P_get_or_create : forall kw created, P (EvGetOrCreate self kw created).
Hypothesis P_exists : P (EvExists name).
Hypothesis P_cache_get :
  create = false -> caching_enabled settings = true -> P (EvCacheGet key).
Hypothesis P_cache_set_read :
  create = false -> caching_enabled settings = true ->
  forall obj, P (EvCacheSet key obj None).

Lemma emits_resolve um ccm kwargs :
  emits_only P (resolve settings self storage name create um ccm kwargs key).
Proof. unfold resolve, when. emits. Qed.

End EmitsResolve.

Section EmitsReconcile.

Variables (P : event -> Prop) (settings : Settings) (self : manager)
  (key : string).

Hypothesis P_update : forall id value, P (EvUpdate self id value).
Hypothesis P_cache_set :
  caching_enabled settings = true -> forall obj, P (EvCacheSet key obj None).

Lemma emits_reconcile um obj created :
  emits_only P (reconcile settings self um key obj created).
Proof. unfold reconcile. emits. Qed.

End EmitsReconcile.

Lemma emits_get_file (P : event -> Prop) settings version self storage name
    create um ccm kwargs :
  (forall sr kw, P (EvGet self sr kw)) ->
  (forall kw created, P (EvGetOrCreate self kw created)) ->
  P (EvExists name) ->
  (forall id value, P (EvUpdate self id value)) ->
  (create = false -> caching_enabled settings = true ->
   forall key, P (EvCacheGet key)) ->
  (caching_enabled settings = true -> forall key obj, P (EvCacheSet key obj None)) ->
  emits_only P (get_file settings version self storage name create um ccm kwargs).
Proof.
  intros. unfold get_file. cbv zeta.
  apply emits_bind.
  { intros w. rewrite _get_cache_key_run. constructor. }
  intros key. apply emits_bind; [apply emits_resolve; auto|].
  intros [[obj created]|]; [|apply emits_ret].
  apply emits_bind; [apply emits_reconcile; auto|intros; apply emits_ret].
Qed.

Lemma count_events_none (Q : event -> bool) (t : list event) :
  Forall (fun e => Q e = false) t -> count_events Q t = 0%nat.
Proof.
  unfold count_events. induction 1 as [|e t He _ IH]; [done|].
  rewrite filter_cons_False; [done|]. by rewrite He.
Qed.

Lemma on_cache_same (w : World) : on_cache (fun _ => cache w) w = w.
Proof. by destruct w. Qed.

(** ** Caching switched off *)

(** C10: with [THUMBNAIL_CACHE] unset or [THUMBNAIL_QUERYSET_CACHING] off, a
    call of [get_file] makes no call to the cache, leaves the cache as it
    was, and its result, its effect on the database and the calls it makes
    are the same whatever the cache holds. *)
Theorem get_file_ignores_a_disabled_cache
    settings version self storage name create update_modified
    check_cache_miss kwargs w r wf evs :
  truthy (THUMBNAIL_CACHE settings) = false
    \/ THUMBNAIL_QUERYSET_CACHING settings = false ->
  get_file settings version self storage name create update_modified
    check_cache_miss kwargs w = (r, wf, evs) ->
  cache wf = cache w
  /\ count_events is_cache_event evs = 0%nat
  /\ forall c,
       get_file settings version self storage name create update_modified
         check_cache_miss kwargs (on_cache (fun _ => c) w)
       = (r, on_cache (fun _ => c) wf, evs).
Proof.
  intros Hoff Hrun.
  assert (Hdis : caching_enabled settings = false).
  { unfold caching_enabled. destruct Hoff as [-> | ->]; [done|].
    apply andb_false_r. }
  assert (Hany : forall c,
    get_file settings version self storage name create update_modified
      check_cache_miss kwargs (on_cache (fun _ => c) w)
    = (r, on_cache (fun _ => c) wf, evs)).
  { intros c. rewrite commutes_get_file; [by rewrite Hrun|].
    intros Hon. congruence. }
  split; [|split; [|done]].
  - specialize (Hany (cache w)). rewrite on_cache_same, Hrun in Hany.
    inversion Hany as [Hw]. by rewrite Hw at 1.
  - apply count_events_none.
    pose proof (emits_get_file (fun e => is_cache_event e = false) settings
      version self storage name create update_modified check_cache_miss kwargs)
      as Hem.
    specialize (Hem ltac:(done) ltac:(done) ltac:(done) ltac:(done)
                    ltac:(congruence) ltac:(congruence) w).
    by rewrite Hrun in Hem.
Qed.

Lemma get_file_ignores_a_disabled_cache_witness :
  cache stored_world = cache stored_world
  /\ count_events is_cache_event
       [EvGet FileManager false
          (mkKwargs (Some "7a3f") (Some "img.png") None None);
        EvUpdate FileManager 1 5] = 0%nat
  /\ forall c,
       get_file caching_off "2.8" FileManager sample_storage "img.png" false
         (Some 5) true no_kwargs (on_cache (fun _ => c) stored_world)
       = (Ok (Some sample_source),
          on_cache (fun _ => c)
            (mkWorld (mkDb [set_modified 5 sample_source] [] []) ∅ 100),
          [EvGet FileManager false
             (mkKwargs (Some "7a3f") (Some "img.png") None None);
           EvUpdate FileManager 1 5]).
Proof.
  apply (get_file_ignores_a_disabled_cache caching_off "2.8" FileManager
           sample_storage "img.png" false (Some 5) true no_kwargs stored_world
           (Ok (Some sample_source))
           (mkWorld (mkDb [set_modified 5 sample_source] [] []) ∅ 100)).
  - left. reflexivity.
  - vm_compute. reflexivity.
Defined.

(** ** The ORM calls, path by path *)

Lemma check_fields_ok self kw w :
  well_formed self kw = true -> check_fields self kw w = (Ok tt, w, []).
Proof. unfold well_formed, check_fields. by destruct self, (kw_source kw). Qed.

Lemma select_none self kw w :
  selected self kw w = [] -> select self kw w = (Raise DoesNotExist, w, []).
Proof. unfold selected, select. by intros ->. Qed.

Lemma select_one self kw w r :
  selected self kw w = [r] -> select self kw w = (Ok r, w, []).
Proof. unfold selected, select. by intros ->. Qed.

Lemma qs_get_none self sr kw w :
  well_formed self kw = true -> selected self kw w = [] ->
  qs_get self sr kw w = (Raise DoesNotExist, w, [EvGet self sr kw]).
Proof.
  intros Hwf Hsel. unfold qs_get, bind, emit.
  by rewrite (check_fields_ok _ _ _ Hwf), (select_none _ _ _ Hsel).
Qed.

Lemma qs_get_one self sr kw w r :
  well_formed self kw = true -> selected self kw w = [r] ->
  qs_get self sr kw w = (Ok r, w, [EvGet self sr kw]).
Proof.
  intros Hwf Hsel. unfold qs_get, bind, emit.
  by rewrite (check_fields_ok _ _ _ Hwf), (select_one _ _ _ _ Hsel).
Qed.

Lemma pk_below_fresh_pk t r : r ∈ t -> pk r < fresh_pk t.
Proof.
  unfold fresh_pk. induction t as [|a t IH]; [by intros ?%elem_of_nil|].
  intros [->|Hin]%elem_of_cons; cbn; [lia|].
  specialize (IH Hin). lia.
Qed.

Lemma new_row_is_new kw t clock : is_new_row kw clock t (new_row kw t clock).
Proof.
  unfold is_new_row, new_row. cbn. repeat split.
  intros (r & Hpk & Hin)%list_elem_of_fmap.
  apply pk_below_fresh_pk in Hin. lia.
Qed.

Lemma foreign_key_ok_stored self kwargs kw d :
  well_formed self kwargs = true ->
  kw_source kw = kw_source kwargs ->
  source_is_stored kwargs d ->
  foreign_key_ok self kw d = true.
Proof.
  unfold well_formed, foreign_key_ok, source_is_stored.
  intros Hwf -> Hstored. destruct self; [done|].
  destruct (kw_source kwargs) as [s|]; [|done].
  destruct (Hstored s eq_refl) as (s' & Hin & Hpk).
  apply existsb_exists. exists s'. split; [by apply list_elem_of_In|].
  by apply Z.eqb_eq.
Qed.

Lemma get_or_create_found self kw w r :
  well_formed self kw = true -> selected self kw w = [r] ->
  get_or_create self kw w = (Ok (r, false), w, [EvGetOrCreate self kw false]).
Proof.
  intros Hwf Hsel. unfold get_or_create, bind.
  by rewrite (check_fields_ok _ _ _ Hwf), (select_one _ _ _ _ Hsel).
Qed.

Lemma get_or_create_new self kw w :
  well_formed self kw = true -> selected self kw w = [] ->
  foreign_key_ok self kw (db w) = true ->
  get_or_create self kw w =
  (Ok (new_row kw (table self (db w)) (now w), true),
   mkWorld (set_table self
              (table self (db w) ++ [new_row kw (table self (db w)) (now w)])
              (db w))
           (cache w) (now w),
   [EvGetOrCreate self kw true]).
Proof.
  intros Hwf Hsel Hfk. unfold get_or_create, bind, insert_row.
  by rewrite (check_fields_ok _ _ _ Hwf), (select_none _ _ _ Hsel), Hfk.
Qed.

(** A thumbnail cannot be inserted for a source that is not stored. *)
Lemma get_or_create_IntegrityError self kw w :
  well_formed self kw = true -> selected self kw w = [] ->
  foreign_key_ok self kw (db w) = false ->
  get_or_create self kw w
  = (Raise IntegrityError, w, [EvGetOrCreate self kw false]).
Proof.
  intros Hwf Hsel Hfk. unfold get_or_create, bind, insert_row.
  by rewrite (check_fields_ok _ _ _ Hwf), (select_none _ _ _ Hsel), Hfk.
Qed.

Ltac get_or_create_paths self kw w :=
  unfold get_or_create, bind;
  destruct (check_fields_cases self kw w) as [[-> _] | ->];
  [unfold select; destruct (filter _ _) as [|? [|? ?]]; cbn;
   [unfold insert_row; destruct (foreign_key_ok self kw (db w))|..]|].

(** A call of [get_or_create] that reports [created = False] wrote nothing. *)
Lemma get_or_create_not_created self kw w r w1 t :
  get_or_create self kw w = (Ok (r, false), w1, t) -> w1 = w.
Proof. get_or_create_paths self kw w; by inversion 1. Qed.

(** A call of [get_or_create] that reports [created = True] returns the row
    it inserted. *)
Lemma get_or_create_created self kw w r w1 t :
  get_or_create self kw w = (Ok (r, true), w1, t) ->
  r = new_row kw (table self (db w)) (now w)
  /\ w1 = mkWorld (set_table self (table self (db w) ++ [r]) (db w))
                  (cache w) (now w)
  /\ t = [EvGetOrCreate self kw true].
Proof. get_or_create_paths self kw w; by inversion 1. Qed.

(** In every other case the event reports [created = False]. *)
Lemma get_or_create_event self kw w res w1 t :
  get_or_create self kw w = (res, w1, t) ->
  (forall r, res <> Ok (r, true)) ->
  t = [EvGetOrCreate self kw false] /\ cache w1 = cache w.
Proof.
  get_or_create_paths self kw w;
    inversion 1; subst; intros Hne; try done; by destruct (Hne _ eq_refl).
Qed.

(** ** Running [get_file] along one path *)

Ltac unfold_get_file :=
  unfold get_file, resolve, reconcile, when, except_DoesNotExist, bind, ret,
    cache_get, cache_set, storage_exists, update_modified_field.

Ltac reduce := cbn beta iota zeta delta [app negb db cache now].

Lemma selected_nil self kw w : table self (db w) = [] -> selected self kw w = [].
Proof. unfold selected. by intros ->. Qed.

(** C3, as the code has it: on an empty table, with [create] and
    [check_cache_miss] false, and with caching off or no live entry under the
    key, [get_file] returns [None] without raising; it calls neither
    [get_or_create] nor [update], writes nothing to the cache and leaves the
    world as it was. *)
Theorem get_file_absent_on_empty_store
    settings version self storage name update_modified kwargs w key :
  well_formed self kwargs = true ->
  table self (db w) = [] ->
  _get_cache_key version self
    (kwargs_update kwargs (get_storage_hash storage) name) w = (Ok key, w, []) ->
  (caching_enabled settings = true -> cache_lookup key w = None) ->
  exists evs,
    get_file settings version self storage name false update_modified false
      kwargs w = (Ok None, w, evs)
    /\ count_events is_store_write evs = 0%nat
    /\ count_events is_cache_write evs = 0%nat.
Proof.
  intros Hwf Hempty Hkey Hmiss.
  unfold_get_file. rewrite Hkey. reduce.
  destruct (caching_enabled settings); [rewrite (Hmiss eq_refl)|];
    rewrite qs_get_none by (done || by apply selected_nil); reduce;
    eexists; (split; [reflexivity|done]).
Qed.

Lemma get_file_absent_on_empty_store_witness :
  exists evs,
    get_file caching_on "2.8" FileManager sample_storage "img.png" false
      (Some 5) false no_kwargs empty_world = (Ok None, empty_world, evs)
    /\ count_events is_store_write evs = 0%nat
    /\ count_events is_cache_write evs = 0%nat.
Proof.
  apply (get_file_absent_on_empty_store caching_on "2.8" FileManager
           sample_storage "img.png" (Some 5) no_kwargs empty_world sample_key);
    reflexivity.
Defined.

(** C3 as stated fails: the table is empty, yet a live cache entry under the
    key is returned instead of [None], and when [update_modified] differs from
    the cached [modified] an [update] is sent to the store. The world in which
    this happens is reached by creating the record, reading it once and
    deleting the row. *)
Lemma get_file_on_empty_store_returns_cached_record :
  (let w1 := (get_file caching_on "2.8" FileManager sample_storage "img.png"
                true (Some 3) false no_kwargs empty_world).1.2 in
   let w2 := (get_file caching_on "2.8" FileManager sample_storage "img.png"
                false None false no_kwargs w1).1.2 in
   Source_delete 1 (db w2) = Ok (db stale_world)
   /\ cache w2 = cache stale_world /\ now w2 = now stale_world)
  /\ table FileManager (db stale_world) = []
  /\ get_file caching_on "2.8" FileManager sample_storage "img.png" false None
       false no_kwargs stale_world
     = (Ok (Some sample_source), stale_world, [EvCacheGet sample_key])
  /\ (get_file caching_on "2.8" FileManager sample_storage "img.png" false
        (Some 5) false no_kwargs stale_world).2
     = [EvCacheGet sample_key; EvUpdate FileManager 1 5;
        EvCacheSet sample_key (set_modified 5 sample_source) None]
  /\ Ok (Some sample_source) <> Ok (@None File)
  /\ count_events is_store_write
       [EvCacheGet sample_key; EvUpdate FileManager 1 5;
        EvCacheSet sample_key (set_modified 5 sample_source) None] = 1%nat.
Proof. repeat split; try (vm_compute; reflexivity). discriminate. Qed.

(** C2, as the code has it: on the read path with [check_cache_miss], when
    cache and store both miss, the storage has the file and the source passed
    for a thumbnail is stored, [get_file] calls [get_or_create] once, which
    inserts a row, returns that row, and (lines 66-67) with caching on writes
    it into the cache under the key with no expiry; with caching off the
    cache is left alone. *)
Theorem get_file_creates_and_caches_when_storage_has_file
    settings version self storage name update_modified kwargs w key :
  well_formed self kwargs = true ->
  source_is_stored kwargs (db w) ->
  _get_cache_key version self
    (kwargs_update kwargs (get_storage_hash storage) name) w = (Ok key, w, []) ->
  (caching_enabled settings = true -> cache_lookup key w = None) ->
  selected self (kwargs_update kwargs (get_storage_hash storage) name) w = [] ->
  exists_ storage name = true ->
  let kw := pop_defaults (kwargs_update kwargs (get_storage_hash storage) name) in
  exists obj evs,
    is_new_row kw (now w) (table self (db w)) obj
    /\ get_file settings version self storage name false update_modified true
         kwargs w
       = (Ok (Some obj),
          mkWorld (set_table self (table self (db w) ++ [obj]) (db w))
                  (if caching_enabled settings
                   then <[key := mkEntry obj None]> (cache w)
                   else cache w)
                  (now w),
          evs)
    /\ count_events is_get_or_create evs = 1%nat
    /\ EvGetOrCreate self kw true ∈ evs
    /\ (if caching_enabled settings
        then EvCacheSet key obj None ∈ evs
        else count_events is_cache_write evs = 0%nat).
Proof.
  intros Hwf Hstored Hkey Hmiss Hsel Hex kw.
  assert (Hfk : foreign_key_ok self kw (db w) = true)
    by by apply (foreign_key_ok_stored self kwargs).
  exists (new_row kw (table self (db w)) (now w)).
  unfold_get_file. rewrite Hkey. reduce.
  destruct (caching_enabled settings); [rewrite (Hmiss eq_refl)|];
    rewrite qs_get_none by done; reduce; rewrite Hex;
    rewrite get_or_create_new by done; reduce;
    destruct update_modified; reduce;
    (eexists; split; [apply new_row_is_new|]);
    (split; [reflexivity|]);
    (split; [done|]); split; try done; set_solver.
Qed.

Lemma get_file_creates_and_caches_witness :
  exists obj evs,
    is_new_row
      (mkKwargs (Some "7a3f") (Some "img.png.50x50.jpg") (Some sample_source) None)
      100 [sample_thumbnail] obj
    /\ get_file caching_on "2.8" ThumbnailManager full_storage
         "img.png.50x50.jpg" false None true
         (mkKwargs None None (Some sample_source) None) linked_world
       = (Ok (Some obj),
          mkWorld (mkDb [sample_source] [sample_thumbnail; obj]
                        [sample_dimensions])
                  (<["easy_thumbnails:2.8:ThumbnailManager:7a3f:img.png.50x50.jpg:1"
                     := mkEntry obj None]> ∅)
                  100,
          evs)
    /\ count_events is_get_or_create evs = 1%nat
    /\ EvCacheSet
         "easy_thumbnails:2.8:ThumbnailManager:7a3f:img.png.50x50.jpg:1" obj None
       ∈ evs.
Proof.
  destruct (get_file_creates_and_caches_when_storage_has_file caching_on "2.8"
              ThumbnailManager full_storage "img.png.50x50.jpg" None
              (mkKwargs None None (Some sample_source) None) linked_world
              "easy_thumbnails:2.8:ThumbnailManager:7a3f:img.png.50x50.jpg:1")
    as (obj & evs & Hnew & Hrun & Hone & _ & Hset).
  - reflexivity.
  - intros s [= <-]. exists sample_source.
    split; [apply list_elem_of_here|reflexivity].
  - reflexivity.
  - reflexivity.
  - reflexivity.
  - vm_compute. reflexivity.
  - exists obj, evs. split; [exact Hnew|]. split; [exact Hrun|].
    split; [exact Hone|exact Hset].
Defined.

(** C2 as stated fails: cache and store miss, the storage has the file, and
    after the call the created row sits in the cache under the key. *)
Lemma created_record_is_cached_on_storage_hit :
  cache_lookup sample_key empty_world = None
  /\ selected FileManager (mkKwargs (Some "7a3f") (Some "img.png") None None)
       empty_world = []
  /\ exists_ sample_storage "img.png" = true
  /\ exists wf,
       get_file caching_on "2.8" FileManager sample_storage "img.png" false
         None true no_kwargs empty_world
       = (Ok (Some (mkFile 1 "7a3f" "img.png" 100 None)), wf,
          [EvCacheGet sample_key;
           EvGet FileManager false
             (mkKwargs (Some "7a3f") (Some "img.png") None None);
           EvExists "img.png";
           EvGetOrCreate FileManager
             (mkKwargs (Some "7a3f") (Some "img.png") None None) true;
           EvCacheSet sample_key (mkFile 1 "7a3f" "img.png" 100 None) None])
       /\ cache wf !! sample_key
          = Some (mkEntry (mkFile 1 "7a3f" "img.png" 100 None) None)
       /\ cache wf <> cache empty_world.
Proof.
  repeat split; try (vm_compute; reflexivity).
  eexists. split; [vm_compute; reflexivity|]. split; [vm_compute; reflexivity|].
  intros H. apply (f_equal (fun c => c !! sample_key)) in H.
  vm_compute in H. discriminate.
Qed.

(** C8: on the read path with caching on, when the cache has no live entry
    and the store has the record, line 67 sets the key to the record with
    [timeout=None]; whatever was stored under the key before is replaced,
    every cache write of the call uses [timeout=None], and the entry left
    under the key holds the returned record and is live at every later time. *)
Theorem store_hit_is_written_to_the_cache
    settings version self storage name update_modified check_cache_miss
    kwargs w key obj :
  caching_enabled settings = true ->
  well_formed self kwargs = true ->
  _get_cache_key version self
    (kwargs_update kwargs (get_storage_hash storage) name) w = (Ok key, w, []) ->
  cache_lookup key w = None ->
  selected self (kwargs_update kwargs (get_storage_hash storage) name) w = [obj] ->
  let final :=
    match update_modified with
    | Some t => if modified obj =? t then obj else set_modified t obj
    | None => obj
    end in
  exists wf evs,
    get_file settings version self storage name false update_modified
      check_cache_miss kwargs w = (Ok (Some final), wf, evs)
    /\ EvCacheSet key obj None ∈ evs
    /\ (forall e, e ∈ evs -> is_cache_write e = true ->
        exists o, e = EvCacheSet key o None)
    /\ cache wf !! key = Some (mkEntry final None)
    /\ forall clock,
         cache_lookup key (mkWorld (db wf) (cache wf) clock) = Some final.
Proof.
  intros Hon Hwf Hkey Hmiss Hsel final. subst final.
  unfold_get_file. rewrite Hkey, Hon. reduce. rewrite Hmiss.
  rewrite qs_get_one with (r := obj) by done. reduce.
  destruct update_modified as [t|]; reduce;
    [destruct (modified obj =? t); reduce|];
    (eexists _, _; split; [reflexivity|]);
    (split; [set_solver|]);
    (split; [intros e He Hw; repeat (apply elem_of_cons in He as [->|He]);
             try discriminate; eauto; by apply elem_of_nil in He|]);
    reduce; unfold cache_lookup; reduce;
    rewrite ?insert_insert_eq, lookup_insert_eq; done.
Qed.

Lemma store_hit_is_written_to_the_cache_witness :
  exists wf evs,
    get_file caching_on "2.8" FileManager sample_storage "img.png" false None
      false no_kwargs expired_world = (Ok (Some sample_source), wf, evs)
    /\ EvCacheSet sample_key sample_source None ∈ evs
    /\ (forall e, e ∈ evs -> is_cache_write e = true ->
        exists o, e = EvCacheSet sample_key o None)
    /\ cache wf !! sample_key = Some (mkEntry sample_source None)
    /\ forall clock,
         cache_lookup sample_key (mkWorld (db wf) (cache wf) clock)
         = Some sample_source.
Proof.
  apply (store_hit_is_written_to_the_cache caching_on "2.8" FileManager
           sample_storage "img.png" None false no_kwargs expired_world
           sample_key sample_source); reflexivity.
Defined.

(** ** Reconciling [modified] *)

Lemma table_set_table self t d : table self (set_table self t d) = t.
Proof. by destruct self. Qed.

Lemma table_set_table_ne self other t d :
  other <> self -> table other (set_table self t d) = table other d.
Proof. by destruct self, other. Qed.

Lemma dimensions_set_table self t d : dimensions (set_table self t d) = dimensions d.
Proof. by destruct self. Qed.

(** [update] rewrites [modified] on the rows with the given key and nothing
    else. *)
Lemma update_rows_only_modified id value t :
  Forall2
    (fun old new =>
       same_but_modified old new
       /\ modified new = if pk old =? id then value else modified old)
    t (update_rows id value t).
Proof.
  induction t as [|r t IH]; [constructor|].
  cbn. constructor; [|done]. unfold same_but_modified. by destruct (pk r =? id).
Qed.

Lemma count_events_app Q t1 t2 :
  count_events Q (t1 ++ t2) = (count_events Q t1 + count_events Q t2)%nat.
Proof. unfold count_events. by rewrite filter_app, length_app. Qed.

(** The create path and the read path send no [update]. *)
Lemma resolve_sends_no_update settings self storage name create um ccm kwargs key w :
  count_events is_update
    (resolve settings self storage name create um ccm kwargs key w).2 = 0%nat.
Proof.
  apply count_events_none.
  by apply (emits_resolve (fun e => is_update e = false)).
Qed.

Lemma qs_get_run self sr kw w :
  exists r, qs_get self sr kw w = (r, w, [EvGet self sr kw]).
Proof.
  unfold qs_get, bind, emit, check_fields, select, raise, ret.
  destruct self, (kw_source kw); cbn;
    try destruct (filter _ _) as [|r0 [|r1 l]]; cbn; eauto.
Qed.

(** When neither path created the record, the database is as it was. *)
Lemma resolve_not_created settings self storage name create um ccm kwargs key
    w obj w1 t1 :
  resolve settings self storage name create um ccm kwargs key w
    = (Ok (Some (obj, false)), w1, t1) ->
  db w1 = db w /\ now w1 = now w.
Proof.
  unfold resolve, when, except_DoesNotExist, bind, ret, cache_get, cache_set,
    storage_exists.
  destruct create.
  - destruct (get_or_create _ _ w) as [[[[r c]|e] w2] t2] eqn:Hgoc; [|done].
    intros H; inversion H; subst.
    by rewrite (get_or_create_not_created _ _ _ _ _ _ Hgoc).
  - destruct (qs_get_run self (_get_thumbnail_manager settings self)
                (pop_defaults kwargs) w) as [r Hget].
    destruct (caching_enabled settings); reduce;
      [destruct (cache_lookup key w); [by inversion 1|]|];
      rewrite Hget; (destruct r as [r|[]]; reduce; try by inversion 1);
      (destruct ccm; [|by inversion 1]);
      (destruct (exists_ storage name); [|by inversion 1]);
      (destruct (get_or_create _ _ w) as [[[[r c]|e] w2] t2] eqn:Hgoc; [|done]);
      reduce; intros H; inversion H; subst;
      by rewrite (get_or_create_not_created _ _ _ _ _ _ Hgoc).
Qed.

(** C1, as the code has it: line 70 compares [update_modified] with the
    [modified] of the object resolved by lines 40-67, which on a cache hit is
    the cached copy and otherwise the row read from the table.  When
    [update_modified] is given, that object was not created by the call, and
    its [modified] differs, the call sends exactly one [update]; that update
    changes [modified] on the rows with the object's key and no other column,
    no other row and no other table; and with caching on the entry under the
    key afterwards holds the object with the new [modified]. *)
Theorem modified_is_reconciled_by_one_update
    settings version self storage name create t check_cache_miss kwargs w
    key obj w1 t1 :
  _get_cache_key version self
    (kwargs_update kwargs (get_storage_hash storage) name) w = (Ok key, w, []) ->
  resolve settings self storage name create (Some t) check_cache_miss
    (kwargs_update kwargs (get_storage_hash storage) name) key w
    = (Ok (Some (obj, false)), w1, t1) ->
  modified obj <> t ->
  exists wf evs,
    get_file settings version self storage name create (Some t)
      check_cache_miss kwargs w
    = (Ok (Some (if caching_enabled settings then set_modified t obj else obj)),
       wf, evs)
    /\ count_events is_update evs = 1%nat
    /\ EvUpdate self (pk obj) t ∈ evs
    /\ table self (db wf) = update_rows (pk obj) t (table self (db w))
    /\ Forall2
         (fun old new =>
            same_but_modified old new
            /\ modified new = if pk old =? pk obj then t else modified old)
         (table self (db w)) (table self (db wf))
    /\ (forall other, other <> self -> table other (db wf) = table other (db w))
    /\ dimensions (db wf) = dimensions (db w)
    /\ (caching_enabled settings = true ->
        cache_lookup key wf = Some (set_modified t obj)).
Proof.
  intros Hkey Hres Hne.
  pose proof (resolve_sends_no_update settings self storage name create
                (Some t) check_cache_miss
                (kwargs_update kwargs (get_storage_hash storage) name) key w)
    as Hquiet.
  destruct (resolve_not_created _ _ _ _ _ _ _ _ _ _ _ _ _ Hres) as [Hdb Hnow].
  rewrite Hres in Hquiet. cbn [snd] in Hquiet.
  assert (Hneq : (modified obj =? t) = false) by by apply Z.eqb_neq.
  unfold get_file, bind. cbv zeta. rewrite Hkey, Hres.
  unfold reconcile, bind, ret, update_modified_field, cache_set.
  reduce. rewrite Hneq. reduce.
  destruct (caching_enabled settings); reduce;
    (eexists _, _; split; [reflexivity|]);
    rewrite !count_events_app, Hquiet, Hdb;
    (split; [done|]); (split; [set_solver|]);
    reduce; rewrite table_set_table;
    (split; [done|]); (split; [apply update_rows_only_modified|]);
    (split; [intros; by apply table_set_table_ne|]);
    (split; [apply dimensions_set_table|]); [|done].
  intros _. unfold cache_lookup. reduce. by rewrite lookup_insert_eq.
Qed.

Lemma modified_is_reconciled_by_one_update_witness :
  exists wf evs,
    get_file caching_on "2.8" FileManager sample_storage "img.png" false
      (Some 5) false no_kwargs stored_world
    = (Ok (Some (set_modified 5 sample_source)), wf, evs)
    /\ count_events is_update evs = 1%nat
    /\ EvUpdate FileManager 1 5 ∈ evs
    /\ table FileManager (db wf) = [set_modified 5 sample_source]
    /\ cache_lookup sample_key wf = Some (set_modified 5 sample_source).
Proof.
  destruct (modified_is_reconciled_by_one_update caching_on "2.8" FileManager
              sample_storage "img.png" false 5 false no_kwargs stored_world
              sample_key sample_source
              (mkWorld (db stored_world)
                 (<[sample_key := mkEntry sample_source None]> ∅) 100)
              [EvCacheGet sample_key;
               EvGet FileManager false
                 (mkKwargs (Some "7a3f") (Some "img.png") None None);
               EvCacheSet sample_key sample_source None])
    as (wf & evs & Hrun & Hone & Hin & Htab & _ & _ & _ & Hcache).
  - reflexivity.
  - vm_compute. reflexivity.
  - discriminate.
  - exists wf, evs. repeat split; try done. by apply Hcache.
Defined.

(** C1 as stated fails: the stored [modified] is 5 and differs from
    [update_modified = 3], the record is not created by the call, and yet no
    [update] is sent, because the cached copy that line 51 returns still
    carries [modified = 3].  The world in which this happens is reached by
    creating the record, reading it once, deleting the row and creating the
    record again. *)
Lemma stale_copy_hides_the_stored_modified :
  (let w1 := (get_file caching_on "2.8" FileManager sample_storage "img.png"
                true (Some 3) false no_kwargs empty_world).1.2 in
   let w2 := (get_file caching_on "2.8" FileManager sample_storage "img.png"
                false None false no_kwargs w1).1.2 in
   exists d3,
     Source_delete 1 (db w2) = Ok d3
     /\ (get_file caching_on "2.8" FileManager sample_storage "img.png" true
           (Some 5) false no_kwargs (mkWorld d3 (cache w2) (now w2))).1.2
        = outdated_world)
  /\ selected FileManager (mkKwargs (Some "7a3f") (Some "img.png") None None)
       outdated_world = [mkFile 1 "7a3f" "img.png" 5 None]
  /\ modified (mkFile 1 "7a3f" "img.png" 5 None) <> 3
  /\ get_file caching_on "2.8" FileManager sample_storage "img.png" false
       (Some 3) false no_kwargs outdated_world
     = (Ok (Some sample_source), outdated_world, [EvCacheGet sample_key])
  /\ count_events is_update [EvCacheGet sample_key] = 0%nat
  /\ count_events is_get_or_create [EvCacheGet sample_key] = 0%nat.
Proof.
  split; [|repeat split; try (vm_compute; reflexivity); discriminate].
  cbv zeta. eexists. split; vm_compute; reflexivity.
Qed.

(** ** The create path *)

(** C4: a call with [create=True] never reads the cache.  The create path,
    lines 40-44, makes no call to the cache and leaves it as it was; a record
    it creates has [modified] equal to [update_modified] when that is given,
    is stored in the table and returned, and the call writes nothing to the
    cache.  What follows the path is the reconciliation of lines 69-75, which
    both paths share: when the path fetched a record that was already stored,
    it writes the cache exactly when [update_modified] is given, differs from
    the record's [modified] and caching is on, and then the entry under the
    key is the returned record; in every other case, a failing call included,
    the cache is as it was and no cache write is made. *)
Theorem create_path_and_the_cache
    settings version self storage name update_modified check_cache_miss
    kwargs w r wf evs :
  get_file settings version self storage name true update_modified
    check_cache_miss kwargs w = (r, wf, evs) ->
  count_events is_cache_read evs = 0%nat
  /\ (forall key,
        match resolve settings self storage name true update_modified
                check_cache_miss
                (kwargs_update kwargs (get_storage_hash storage) name) key w with
        | (_, w1, t1) =>
            cache w1 = cache w /\ count_events is_cache_event t1 = 0%nat
        end)
  /\ (forall kw, EvGetOrCreate self kw true ∈ evs ->
        exists obj,
          r = Ok (Some obj)
          /\ (forall t, update_modified = Some t -> modified obj = t)
          /\ obj ∈ table self (db wf)
          /\ cache wf = cache w
          /\ count_events is_cache_write evs = 0%nat)
  /\ (forall key obj created w1 t1,
        _get_cache_key version self
          (kwargs_update kwargs (get_storage_hash storage) name) w
          = (Ok key, w, []) ->
        resolve settings self storage name true update_modified
          check_cache_miss
          (kwargs_update kwargs (get_storage_hash storage) name) key w
          = (Ok (Some (obj, created)), w1, t1) ->
        match update_modified with
        | Some t =>
            if negb created && negb (modified obj =? t)
               && caching_enabled settings
            then r = Ok (Some (set_modified t obj))
                 /\ cache wf
                    = <[key := mkEntry (set_modified t obj) None]> (cache w)
                 /\ count_events is_cache_write evs = 1%nat
            else r = Ok (Some obj)
                 /\ cache wf = cache w
                 /\ count_events is_cache_write evs = 0%nat
        | None =>
            r = Ok (Some obj)
            /\ cache wf = cache w
            /\ count_events is_cache_write evs = 0%nat
        end)
  /\ ((forall obj, r <> Ok (Some obj)) ->
      cache wf = cache w /\ count_events is_cache_write evs = 0%nat).
Proof.
  intros Hrun.
  assert (Hshape : forall key res w1 t1,
    resolve settings self storage name true update_modified check_cache_miss
      (kwargs_update kwargs (get_storage_hash storage) name) key w
      = (res, w1, t1) ->
    cache w1 = cache w /\ exists kw c, t1 = [EvGetOrCreate self kw c]).
  { intros key res w1 t1. unfold resolve, bind, ret.
    destruct (get_or_create _ _ w) as [[res0 w0] t0] eqn:Hgoc.
    assert (cache w0 = cache w /\ exists kw c, t0 = [EvGetOrCreate self kw c])
      as [Hc Ht].
    { destruct res0 as [[r0 []]|e].
      - destruct (get_or_create_created _ _ _ _ _ _ Hgoc) as (_ & -> & ->).
        eauto.
      - destruct (get_or_create_event _ _ _ _ _ _ Hgoc) as [-> ->]; eauto.
      - destruct (get_or_create_event _ _ _ _ _ _ Hgoc) as [-> ->]; eauto. }
    destruct res0 as [[r0 c]|e]; reduce; inversion 1; subst;
      by rewrite ?app_nil_r. }
  split; [|split; [|split; [|split]]].
  - apply count_events_none.
    pose proof (emits_get_file (fun e => is_cache_read e = false) settings
      version self storage name true update_modified check_cache_miss kwargs)
      as Hem.
    specialize (Hem ltac:(done) ltac:(done) ltac:(done) ltac:(done)
                    ltac:(done) ltac:(done) w).
    by rewrite Hrun in Hem.
  - intros key.
    destruct (resolve _ _ _ _ _ _ _ _ key w) as [[res w1] t1] eqn:Hres.
    by destruct (Hshape _ _ _ _ Hres) as [-> (kw & c & ->)].
  - intros kw Hin. clear Hshape. revert Hrun Hin.
    unfold get_file, bind. cbv zeta. rewrite _get_cache_key_run.
    destruct (match self with FileManager => _ | ThumbnailManager => _ end)
      as [key|e]; [|inversion 1; subst; by intros ?%elem_of_nil].
    unfold resolve, bind, ret.
    destruct (get_or_create _ _ w) as [[res w1] t1] eqn:Hgoc.
    destruct res as [[r0 []]|e].
    + destruct (get_or_create_created _ _ _ _ _ _ Hgoc) as (Hr & -> & ->).
      unfold reconcile, ret. destruct update_modified as [t|]; reduce;
        inversion 1; subst; intros _; eexists; (split; [reflexivity|]);
        (split; [by inversion 1|]); reduce; rewrite table_set_table;
        (split; [set_solver|done]).
    + destruct (get_or_create_event _ _ _ _ _ _ Hgoc) as [-> _]; [done|].
      unfold reconcile, bind, ret, update_modified_field, cache_set.
      destruct update_modified as [t|]; reduce;
        [destruct (negb (modified r0 =? t)); reduce;
         [destruct (caching_enabled settings); reduce|]|];
        inversion 1; subst; intros Hin;
        repeat (apply elem_of_cons in Hin as [Hin|Hin]; [discriminate|]);
        by apply elem_of_nil in Hin.
    + destruct (get_or_create_event _ _ _ _ _ _ Hgoc) as [-> _]; [done|].
      inversion 1; subst; intros Hin.
      apply elem_of_cons in Hin as [Hin|Hin]; [discriminate|].
      by apply elem_of_nil in Hin.
  - intros key obj created w1 t1 Hkey Hres.
    destruct (Hshape _ _ _ _ Hres) as [Hc (kw & c & ->)].
    revert Hrun. unfold get_file, bind. cbv zeta. rewrite Hkey, Hres.
    unfold reconcile, bind, ret, update_modified_field, cache_set.
    destruct update_modified as [t|]; reduce;
      [destruct created; reduce;
       [|destruct (negb (modified obj =? t)); reduce;
         [destruct (caching_enabled settings); reduce|]]|];
      inversion 1; subst; reduce; by rewrite ?Hc.
  - revert Hrun. unfold get_file, bind. cbv zeta. rewrite _get_cache_key_run.
    destruct (match self with FileManager => _ | ThumbnailManager => _ end)
      as [key|e]; [|by inversion 1].
    destruct (resolve _ _ _ _ _ _ _ _ key w) as [[res w1] t1] eqn:Hres.
    destruct (Hshape _ _ _ _ Hres) as [Hc (kw & c & ->)].
    destruct res as [[[obj created]|]|e];
      [|inversion 1; subst; intros _; split; [done|reflexivity]..].
    unfold reconcile, bind, ret, update_modified_field, cache_set.
    destruct update_modified as [t|]; reduce;
      [destruct created; reduce;
       [|destruct (negb (modified obj =? t)); reduce;
         [destruct (caching_enabled settings); reduce|]]|];
      inversion 1; subst; intros Hnone; by destruct (Hnone _ eq_refl).
Qed.

Lemma create_path_and_the_cache_witness :
  (exists obj wf evs,
     get_file caching_on "2.8" FileManager sample_storage "img.png" true
       (Some 5) false no_kwargs empty_world = (Ok (Some obj), wf, evs)
     /\ modified obj = 5
     /\ obj ∈ table FileManager (db wf)
     /\ cache wf = cache empty_world
     /\ count_events is_cache_read evs = 0%nat
     /\ count_events is_cache_write evs = 0%nat)
  /\ (exists wf evs,
        get_file caching_on "2.8" FileManager sample_storage "img.png" true
          (Some 5) false no_kwargs stored_world
        = (Ok (Some (set_modified 5 sample_source)), wf, evs)
        /\ cache wf
           = <[sample_key := mkEntry (set_modified 5 sample_source) None]>
               (cache stored_world)
        /\ count_events is_cache_read evs = 0%nat
        /\ count_events is_cache_write evs = 1%nat).
Proof.
  split.
  - destruct (create_path_and_the_cache caching_on "2.8" FileManager
                sample_storage "img.png" (Some 5) false no_kwargs empty_world
                (Ok (Some (mkFile 1 "7a3f" "img.png" 5 None)))
                (mkWorld (mkDb [mkFile 1 "7a3f" "img.png" 5 None] [] []) ∅ 100)
                [EvGetOrCreate FileManager
                   (mkKwargs (Some "7a3f") (Some "img.png") None
                      (Some (mkDefaults (Some 5)))) true])
      as (Hread & _ & Hcreated & _).
    + vm_compute. reflexivity.
    + destruct (Hcreated _ ltac:(by apply list_elem_of_here))
        as (obj & Hobj & Hmod & Hin & Hcache & Hwrite).
      exists obj. eexists _, _. rewrite <- Hobj.
      split; [vm_compute; reflexivity|]. by auto.
  - destruct (create_path_and_the_cache caching_on "2.8" FileManager
                sample_storage "img.png" (Some 5) false no_kwargs stored_world
                (Ok (Some (set_modified 5 sample_source)))
                (mkWorld (mkDb [set_modified 5 sample_source] [] [])
                   (<[sample_key := mkEntry (set_modified 5 sample_source) None]>
                      ∅) 100)
                [EvGetOrCreate FileManager
                   (mkKwargs (Some "7a3f") (Some "img.png") None
                      (Some (mkDefaults (Some 5)))) false;
                 EvUpdate FileManager 1 5;
                 EvCacheSet sample_key (set_modified 5 sample_source) None])
      as (Hread & _ & _ & Hfetched & _).
    + vm_compute. reflexivity.
    + destruct (Hfetched sample_key sample_source false stored_world
                  [EvGetOrCreate FileManager
                     (mkKwargs (Some "7a3f") (Some "img.png") None
                        (Some (mkDefaults (Some 5)))) false]
                  eq_refl ltac:(vm_compute; reflexivity))
        as (_ & Hcache & Hwrite).
      eexists _, _. split; [vm_compute; reflexivity|].
      split; [exact Hcache|]. split; [exact Hread|exact Hwrite].
Defined.

(** ** Importing the module *)

(** C7: with [THUMBNAIL_CACHE] set, a failure to import [caches] or to look
    up the alias makes the import of the module raise: no call of [get_file]
    runs before it, whatever calls were to follow, and an [ImportError], a
    [KeyError] or an [ImproperlyConfigured] from Django surfaces as
    [ImproperlyConfigured]. *)
Theorem misconfigured_cache_fails_the_import
    settings version django d clock calls alias e :
  THUMBNAIL_CACHE settings = Some alias ->
  truthy (THUMBNAIL_CACHE settings) = true ->
  import_caches django = Raise e
    \/ (import_caches django = Ok tt /\ caches_getitem django alias = Raise e) ->
  load_cache settings django = Raise (reraise e)
  /\ import_then_resolve settings version django d clock calls
     = (Raise (reraise e), [])
  /\ (e = ImportError \/ (exists k, e = KeyError k)
      \/ (exists m, e = ImproperlyConfigured m) ->
      exists msg, reraise e = ImproperlyConfigured msg).
Proof.
  intros Halias Hon Hfail.
  assert (Hload : load_cache settings django = Raise (reraise e)).
  { unfold load_cache. rewrite Halias in Hon |- *. rewrite Hon.
    by destruct Hfail as [-> | [-> ->]]. }
  split; [done|]. split.
  - unfold import_then_resolve. by rewrite Hload.
  - intros [-> | [[k ->] | [m ->]]]; cbn; eauto.
Qed.

Lemma misconfigured_cache_fails_the_import_witness :
  import_then_resolve caching_on "2.8"
    (mkDjango (Ok tt) (fun alias => Raise (KeyError alias)))
    (mkDb [sample_source] [] []) 100
    [mkCall FileManager sample_storage "img.png" false None false no_kwargs]
  = (Raise (ImproperlyConfigured
              "The cache specified in `THUMBNAIL_CACHE` doesn't seem to exist"),
     []).
Proof.
  apply (misconfigured_cache_fails_the_import caching_on "2.8"
           (mkDjango (Ok tt) (fun alias => Raise (KeyError alias)))
           (mkDb [sample_source] [] []) 100
           [mkCall FileManager sample_storage "img.png" false None false no_kwargs]
           "default" (KeyError "default")).
  - reflexivity.
  - reflexivity.
  - right. split; reflexivity.
Defined.

(** ** Cascading deletion *)

Lemma Thumbnail_delete_spec id d :
  Thumbnail_delete id d
  = Ok (mkDb (sources d)
             (filter (fun t => pk t ≠ id) (thumbnails d))
             (filter (fun x => thumbnail_id x ≠ id) (dimensions d))).
Proof. reflexivity. Qed.

Lemma Thumbnail_delete_all_spec ids d :
  exists d',
    Thumbnail_delete_all ids d = Ok d'
    /\ sources d' = sources d
    /\ (forall t, t ∈ thumbnails d' <-> t ∈ thumbnails d /\ pk t ∉ ids)
    /\ (forall x, x ∈ dimensions d' <-> x ∈ dimensions d /\ thumbnail_id x ∉ ids).
Proof.
  revert d. induction ids as [|id ids IH]; intros d.
  - exists d. split; [done|]. split; [done|].
    split; intros ?; (split; [intros ?; split; [done|by intros ?%elem_of_nil]
                             |by intros [? _]]).
  - cbn [Thumbnail_delete_all]. rewrite Thumbnail_delete_spec.
    destruct (IH (mkDb (sources d)
                       (filter (fun t => pk t ≠ id) (thumbnails d))
                       (filter (fun x => thumbnail_id x ≠ id) (dimensions d))))
      as (d' & -> & Hs & Ht & Hx).
    exists d'. split; [done|]. split; [done|]. cbn in Ht, Hx. split.
    + intros t. rewrite Ht, list_elem_of_filter, not_elem_of_cons. tauto.
    + intros x. rewrite Hx, list_elem_of_filter, not_elem_of_cons. tauto.
Qed.

(** C9: deleting a thumbnail deletes the dimensions attached to it, and
    deleting a source deletes every thumbnail that references it together
    with their dimensions, so that afterwards no thumbnail of the source and
    no dimensions of such a thumbnail remain; thumbnails of other sources
    stay. *)
Theorem deleting_a_source_cascades id d :
  (forall tid d0,
     exists d1,
       Thumbnail_delete tid d0 = Ok d1
       /\ (forall t, t ∈ thumbnails d1 -> pk t ≠ tid)
       /\ (forall x, x ∈ dimensions d1 -> thumbnail_id x ≠ tid))
  /\ exists d',
       Source_delete id d = Ok d'
       /\ (forall s, s ∈ sources d' -> pk s ≠ id)
       /\ (forall t, t ∈ thumbnails d' -> source_id t ≠ Some id)
       /\ (forall t x, t ∈ thumbnails d -> source_id t = Some id ->
                       x ∈ dimensions d' -> thumbnail_id x ≠ pk t)
       /\ (forall t, t ∈ thumbnails d ->
                     pk t ∉ pk <$> thumbnails_of id d -> t ∈ thumbnails d').
Proof.
  split.
  - intros tid d0. eexists. split; [apply Thumbnail_delete_spec|].
    cbn. split; intros ? [? _]%list_elem_of_filter; done.
  - unfold Source_delete. cbn [on_related Thumbnail_source_on_delete].
    destruct (Thumbnail_delete_all_spec (pk <$> thumbnails_of id d) d)
      as (d1 & -> & Hs & Ht & Hx).
    eexists. split; [reflexivity|]. cbn.
    assert (Hof : forall t, t ∈ thumbnails d -> source_id t = Some id ->
                            pk t ∈ pk <$> thumbnails_of id d).
    { intros t Hin Hsrc. apply list_elem_of_fmap_2.
      unfold thumbnails_of. by apply list_elem_of_filter. }
    repeat split.
    + by intros s [? _]%list_elem_of_filter.
    + intros t [Hin Hnot]%Ht Hsrc. by apply Hnot, Hof.
    + intros t x Hin Hsrc [_ Hnot]%Hx Heq. apply Hnot. rewrite Heq. by apply Hof.
    + intros t Hin Hnot. by apply Ht.
Qed.

(** * Further properties of the module *)

(** ** What one call does to the database *)

(** [get_or_create] either leaves the world alone and reports no creation, or
    appends the new row for lookups that selected nothing. *)
Lemma get_or_create_cases self kw w res w1 t :
  get_or_create self kw w = (res, w1, t) ->
  (w1 = w /\ forall r, res <> Ok (r, true))
  \/ (selected self kw w = []
      /\ (self = FileManager -> kw_source kw = None)
      /\ res = Ok (new_row kw (table self (db w)) (now w), true)
      /\ w1 = mkWorld
                (set_table self
                   (table self (db w) ++ [new_row kw (table self (db w)) (now w)])
                   (db w))
                (cache w) (now w)).
Proof.
  unfold get_or_create, bind, selected.
  destruct (check_fields_cases self kw w) as [[-> Hsrc] | ->].
  - unfold select. destruct (filter _ _) as [|r0 [|r1 l]] eqn:Hsel; cbn.
    + unfold insert_row. destruct (foreign_key_ok self kw (db w));
        inversion 1; subst; [by right|by left].
    + inversion 1; subst. by left.
    + inversion 1; subst. by left.
  - inversion 1; subst. by left.
Qed.

Lemma reconcile_cases settings self um key obj created w r wf t :
  reconcile settings self um key obj created w = (r, wf, t) ->
  now wf = now w
  /\ (db wf = db w
      \/ (created = false
          /\ exists value,
               db wf = set_table self
                         (update_rows (pk obj) value (table self (db w))) (db w))).
Proof.
  unfold reconcile, bind, ret, update_modified_field, cache_set.
  destruct um as [v|]; [|inversion 1; subst; auto].
  destruct created; reduce; [inversion 1; subst; auto|].
  destruct (negb (modified obj =? v)); reduce; [|inversion 1; subst; auto].
  destruct (caching_enabled settings); reduce; inversion 1; subst; reduce;
    (split; [done|]); right; eauto.
Qed.

Lemma resolve_cases settings self storage name create um ccm kwargs key w res w1 t1 :
  resolve settings self storage name create um ccm kwargs key w = (res, w1, t1) ->
  now w1 = now w
  /\ ((db w1 = db w /\ forall o, res <> Ok (Some (o, true)))
      \/ (exists kw o,
            selected self kw w = []
            /\ (self = FileManager -> kw_source kw = None)
            /\ kw_source kw = kw_source kwargs
            /\ res = Ok (Some (o, true))
            /\ db w1 = set_table self
                         (table self (db w)
                            ++ [new_row kw (table self (db w)) (now w)])
                         (db w))).
Proof.
  unfold resolve, when, except_DoesNotExist, bind, ret, cache_get, cache_set,
    storage_exists.
  destruct create.
  - destruct (get_or_create _ _ w) as [[res0 w2] t2] eqn:Hgoc.
    destruct (get_or_create_cases _ _ _ _ _ _ Hgoc)
      as [[-> Hno] | (Hsel & Hsrc & -> & ->)].
    + destruct res0 as [[r c]|e]; inversion 1; subst; (split; [done|]); left;
        (split; [done|]); intros o Ho; inversion Ho; subst; by eapply Hno.
    + inversion 1; subst. split; [done|]. right.
      eexists _, _. split; [exact Hsel|]. split; [exact Hsrc|].
      split; [by destruct um|]. by split.
  - destruct (qs_get_run self (_get_thumbnail_manager settings self)
                (pop_defaults kwargs) w) as [r Hget].
    destruct (caching_enabled settings); reduce;
      [destruct (cache_lookup key w);
       [inversion 1; subst; split; [done|left; by split]|]|];
      rewrite Hget;
      (destruct r as [r|[]]; reduce;
       try (inversion 1; subst; split; [done|left; by split]));
      (destruct ccm; [|inversion 1; subst; split; [done|left; by split]]);
      (destruct (exists_ storage name);
       [|inversion 1; subst; split; [done|left; by split]]);
      destruct (get_or_create _ _ w) as [[res0 w2] t2] eqn:Hgoc;
      (destruct (get_or_create_cases _ _ _ _ _ _ Hgoc)
         as [[-> Hno] | (Hsel & Hsrc & -> & ->)];
       [destruct res0 as [[r c]|e]; reduce; inversion 1; subst;
        (split; [done|]); left; (split; [done|]); intros o Ho;
        inversion Ho; subst; by eapply Hno
       |reduce; inversion 1; subst; (split; [done|]); right;
        eexists _, _; (split; [exact Hsel|]); (split; [exact Hsrc|]);
        (split; [done|]); by split]).
Qed.

Lemma derived_key_run version self kwargs h n w :
  _get_cache_key version self (kwargs_update kwargs h n) w
  = (derived_key version self kwargs h n, w, []).
Proof. apply _get_cache_key_run. Qed.

(** [get_file] as the sequence of its three steps. *)
Lemma get_file_unfold settings version self storage name create um ccm kwargs w :
  get_file settings version self storage name create um ccm kwargs w
  = match derived_key version self kwargs (get_storage_hash storage) name with
    | Ok key =>
        match resolve settings self storage name create um ccm
                (kwargs_update kwargs (get_storage_hash storage) name) key w with
        | (Ok (Some (obj, created)), w1, t1) =>
            match reconcile settings self um key obj created w1 with
            | (Ok o, w2, t2) => (Ok (Some o), w2, t1 ++ t2)
            | (Raise e, w2, t2) => (Raise e, w2, t1 ++ t2)
            end
        | (Ok None, w1, t1) => (Ok None, w1, t1)
        | (Raise e, w1, t1) => (Raise e, w1, t1)
        end
    | Raise e => (Raise e, w, [])
    end.
Proof.
  unfold get_file. cbv zeta. unfold bind at 1. rewrite derived_key_run.
  destruct (derived_key _ _ _ _ _) as [key|e]; [|done].
  unfold bind at 1.
  destruct (resolve _ _ _ _ _ _ _ _ _ w) as [[[[[obj created]|]|e] w1] t1];
    unfold ret; reduce; rewrite ?app_nil_r; try done.
  unfold bind.
  destruct (reconcile _ _ _ _ _ _ w1) as [[[o|e] w2] t2]; reduce;
    by rewrite ?app_nil_r.
Qed.

Lemma get_file_db_step settings version self storage name create um ccm kwargs
    w r wf evs :
  get_file settings version self storage name create um ccm kwargs w
    = (r, wf, evs) ->
  now wf = now w /\ db_step self (kw_source kwargs) (now w) (db w) (db wf).
Proof.
  rewrite get_file_unfold.
  destruct (derived_key _ _ _ _ _) as [key|e];
    [|inversion 1; subst; split; [done|by left]].
  destruct (resolve _ _ _ _ _ _ _ _ _ w) as [[res w1] t1] eqn:Hres.
  destruct (resolve_cases _ _ _ _ _ _ _ _ _ _ _ _ _ Hres) as [Hnow Hstep].
  destruct res as [[[obj created]|]|e];
    try (inversion 1; subst; split; [done|];
         destruct Hstep as [[-> _] | (kw & o & _ & _ & _ & Ho & _)];
         [by left | discriminate]).
  destruct (reconcile _ _ _ _ _ _ w1) as [[r2 w2] t2] eqn:Hrec.
  destruct (reconcile_cases _ _ _ _ _ _ _ _ _ _ Hrec) as [Hnow2 Hrstep].
  assert (Hfinal : db_step self (kw_source kwargs) (now w) (db w) (db w2)).
  { destruct Hstep as [[Hdb Hno] | (kw & o & Hsel & Hsrc & Hks & Ho & Hdb)].
    - destruct Hrstep as [Hf | [_ [v Hf]]]; rewrite Hf, ?Hdb;
        [by left | right; right; eauto].
    - inversion Ho; subst. destruct Hrstep as [Hf | [? _]]; [|done].
      rewrite Hf, Hdb. right; left. by exists kw. }
  destruct r2; inversion 1; subst; (split; [congruence|done]).
Qed.

(** ** The table constraints are kept *)

Lemma matches_new_row kw t clock : matches kw (new_row kw t clock) = true.
Proof.
  unfold matches, new_row, opt_matches. cbn.
  destruct (kw_storage_hash kw), (kw_name kw), (kw_source kw); cbn;
    rewrite ?String.eqb_refl, ?Z.eqb_refl; done.
Qed.

(** Whether a row matches depends only on the columns of its unique key. *)
Lemma matches_unique_key self kw r r' :
  (self = FileManager -> kw_source kw = None) ->
  unique_key self r = unique_key self r' ->
  matches kw r = matches kw r'.
Proof.
  unfold unique_key, matches. intros Hsrc Hkey.
  destruct self.
  - inversion Hkey as [[Hh Hn]]. by rewrite Hh, Hn, (Hsrc eq_refl).
  - inversion Hkey as [[Hh Hn Hs]]. by rewrite Hh, Hn, Hs.
Qed.

Lemma unique_key_update_rows self id value t :
  unique_key self <$> update_rows id value t = unique_key self <$> t.
Proof.
  induction t as [|r t IH]; [done|]. cbn. f_equal; [|done].
  by destruct (pk r =? id), self.
Qed.

Lemma pk_update_rows id value t : pk <$> update_rows id value t = pk <$> t.
Proof.
  induction t as [|r t IH]; [done|]. cbn. f_equal; [|done].
  by destruct (pk r =? id).
Qed.

Lemma manager_eq_or_ne (m self : manager) : m = self \/ m <> self.
Proof. destruct m, self; auto; by right. Qed.

Lemma db_step_unique_together self src clock d d' m :
  db_step self src clock d d' ->
  unique_together m (table m d) -> unique_together m (table m d').
Proof.
  intros [-> | [(kw & Hsel & Hsrc & _ & ->) | (id & value & ->)]] Huniq; [done|..];
    (destruct (manager_eq_or_ne m self) as [->|Hne];
     [rewrite table_set_table | by rewrite table_set_table_ne]).
  - unfold unique_together. rewrite fmap_app. apply NoDup_app.
    split; [done|]. split; [|apply NoDup_singleton].
    intros k Hk [->|[]%elem_of_nil]%elem_of_cons.
    apply list_elem_of_fmap in Hk as (r & Hkey & Hin).
    assert (Hm : matches kw r = true).
    { rewrite (matches_unique_key self kw r
                 (new_row kw (table self d) clock) Hsrc); [|done].
      apply matches_new_row. }
    assert (Hr : r ∈ filter (fun r => matches kw r = true) (table self d))
      by by apply list_elem_of_filter.
    rewrite Hsel in Hr. by apply elem_of_nil in Hr.
  - unfold unique_together. by rewrite unique_key_update_rows.
Qed.

Lemma db_step_distinct_pks self src clock d d' m :
  db_step self src clock d d' ->
  distinct_pks (table m d) -> distinct_pks (table m d').
Proof.
  intros [-> | [(kw & Hsel & Hsrc & _ & ->) | (id & value & ->)]] Huniq; [done|..];
    (destruct (manager_eq_or_ne m self) as [->|Hne];
     [rewrite table_set_table | by rewrite table_set_table_ne]).
  - unfold distinct_pks. rewrite fmap_app. apply NoDup_app.
    split; [done|]. split; [|apply NoDup_singleton].
    intros k Hk [->|[]%elem_of_nil]%elem_of_cons.
    apply list_elem_of_fmap in Hk as (r & Hkey & Hin).
    apply pk_below_fresh_pk in Hin. cbn in Hkey. lia.
  - unfold distinct_pks. by rewrite pk_update_rows.
Qed.

(** X1: a call of [get_file], whatever its arguments and outcome, keeps the
    [unique_together] constraint of both tables: it inserts a row only where
    no row with the same storage hash, name and source was stored. *)
Theorem get_file_keeps_unique_together
    settings version self storage name create update_modified
    check_cache_miss kwargs w r wf evs m :
  get_file settings version self storage name create update_modified
    check_cache_miss kwargs w = (r, wf, evs) ->
  unique_together m (table m (db w)) ->
  unique_together m (table m (db wf)).
Proof.
  intros Hrun. apply get_file_db_step in Hrun as [_ Hstep].
  by eapply db_step_unique_together.
Qed.

(** X2: a call of [get_file] keeps primary keys distinct in both tables. *)
Theorem get_file_keeps_primary_keys_distinct
    settings version self storage name create update_modified
    check_cache_miss kwargs w r wf evs m :
  get_file settings version self storage name create update_modified
    check_cache_miss kwargs w = (r, wf, evs) ->
  distinct_pks (table m (db w)) ->
  distinct_pks (table m (db wf)).
Proof.
  intros Hrun. apply get_file_db_step in Hrun as [_ Hstep].
  by eapply db_step_distinct_pks.
Qed.

(** X3: a call of [get_file] never deletes a row and never changes a column
    other than [modified]: its own table afterwards is the old rows, equal up
    to [modified], followed by at most one new row; the other table, the
    dimensions and the clock are as before. *)
Theorem get_file_only_adds_rows_or_touches_modified
    settings version self storage name create update_modified
    check_cache_miss kwargs w r wf evs :
  get_file settings version self storage name create update_modified
    check_cache_miss kwargs w = (r, wf, evs) ->
  (exists old extra,
     table self (db wf) = old ++ extra
     /\ Forall2 same_but_modified (table self (db w)) old
     /\ (length extra <= 1)%nat)
  /\ (forall other, other <> self -> table other (db wf) = table other (db w))
  /\ dimensions (db wf) = dimensions (db w)
  /\ now wf = now w.
Proof.
  intros Hrun. apply get_file_db_step in Hrun as [Hnow Hstep].
  assert (Hrefl : forall t, Forall2 same_but_modified t t).
  { intros t. apply Forall2_same_length_lookup_2; [done|].
    intros i x y Hx Hy. rewrite Hx in Hy. by inversion Hy. }
  destruct Hstep as [-> | [(kw & Hsel & Hsrc & _ & ->) | (id & value & ->)]].
  - repeat split; try done. exists (table self (db w)), [].
    rewrite app_nil_r. repeat split; [apply Hrefl|cbn; lia].
  - rewrite table_set_table, dimensions_set_table.
    repeat split; try done; [|intros; by apply table_set_table_ne].
    eexists _, [_]. repeat split; [apply Hrefl|cbn; lia].
  - rewrite table_set_table, dimensions_set_table.
    repeat split; try done; [|intros; by apply table_set_table_ne].
    eexists _, []. rewrite app_nil_r. repeat split; [|cbn; lia].
    eapply Forall2_impl; [apply update_rows_only_modified|].
    by intros ?? [? _].
Qed.

(** ** Lookups on a constrained table *)

Lemma filter_same_key {A K} (f : A -> K) (P : A -> Prop)
    `{forall x, Decision (P x)} (k : K) (l : list A) :
  NoDup (f <$> l) ->
  (forall x, x ∈ l -> P x -> f x = k) ->
  (length (filter P l) <= 1)%nat.
Proof.
  induction l as [|a l IH]; [cbn; lia|].
  rewrite fmap_cons. intros [Hnot Hnd]%NoDup_cons Hk.
  destruct (decide (P a)) as [Ha|Ha].
  - rewrite filter_cons_True by done.
    assert (Hnil : filter P l = []).
    { destruct (filter P l) as [|y l'] eqn:Hf; [done|].
      assert (Hy : y ∈ filter P l) by (rewrite Hf; apply list_elem_of_here).
      apply list_elem_of_filter in Hy as [Hpy Hyl].
      destruct Hnot. rewrite (Hk a) by (done || apply list_elem_of_here).
      rewrite <- (Hk y) by (done || by apply list_elem_of_further).
      by apply list_elem_of_fmap_2. }
    rewrite Hnil. cbn. lia.
  - rewrite filter_cons_False by done. apply IH; [done|].
    intros x Hx. apply Hk. by apply list_elem_of_further.
Qed.

(** The key columns of a row that matches full lookups. *)
Lemma matches_fixes_unique_key self kwargs h n dflt r :
  well_formed self kwargs = true ->
  matches (mkKwargs (Some h) (Some n) (kw_source kwargs) dflt) r = true ->
  unique_key self r
  = (h, n, match self with
           | FileManager => None
           | ThumbnailManager => pk <$> kw_source kwargs
           end).
Proof.
  unfold well_formed, matches, unique_key. cbn.
  intros Hwf [[Hh Hn]%andb_true_iff Hs]%andb_true_iff.
  apply String.eqb_eq in Hh, Hn. subst h n.
  destruct self, (kw_source kwargs) as [s|]; try done.
  destruct (source_id r) as [i|]; [|done].
  apply Z.eqb_eq in Hs. by subst i.
Qed.

(** Under [unique_together], full lookups select at most one row. *)
Lemma selected_at_most_one self kwargs h n dflt w :
  well_formed self kwargs = true ->
  unique_together self (table self (db w)) ->
  selected self (mkKwargs (Some h) (Some n) (kw_source kwargs) dflt) w = []
  \/ exists r,
       selected self (mkKwargs (Some h) (Some n) (kw_source kwargs) dflt) w = [r].
Proof.
  intros Hwf Huniq.
  pose proof (filter_same_key (unique_key self)
    (fun r => matches (mkKwargs (Some h) (Some n) (kw_source kwargs) dflt) r = true)
    _ (table self (db w)) Huniq
    (fun x _ Hx => matches_fixes_unique_key self kwargs h n dflt x Hwf Hx)) as Hlen.
  unfold selected. destruct (filter _ _) as [|r [|r' l]]; cbn in Hlen; eauto; lia.
Qed.

Lemma well_formed_mkKwargs self kwargs sh nm dflt :
  well_formed self (mkKwargs sh nm (kw_source kwargs) dflt) = well_formed self kwargs.
Proof. done. Qed.

Lemma get_or_create_ok self kwargs h n dflt w :
  well_formed self kwargs = true ->
  source_is_stored kwargs (db w) ->
  unique_together self (table self (db w)) ->
  exists r created w1 t,
    get_or_create self (mkKwargs (Some h) (Some n) (kw_source kwargs) dflt) w
    = (Ok (r, created), w1, t).
Proof.
  intros Hwf Hstored Huniq.
  destruct (selected_at_most_one self kwargs h n dflt w Hwf Huniq) as [Hsel|[r Hsel]].
  - rewrite get_or_create_new;
      [eauto|done|done|by apply (foreign_key_ok_stored self kwargs)].
  - rewrite (get_or_create_found _ _ _ r) by done. eauto.
Qed.

Lemma reconcile_ok settings self um key obj created w :
  exists o wf t, reconcile settings self um key obj created w = (Ok o, wf, t).
Proof.
  unfold reconcile, bind, ret, update_modified_field, cache_set.
  destruct um as [v|]; [|eauto].
  destruct created; reduce; [eauto|].
  destruct (negb (modified obj =? v)); reduce; [|eauto].
  destruct (caching_enabled settings); reduce; eauto.
Qed.

Lemma resolve_ok settings self storage name create um ccm kwargs key w :
  well_formed self kwargs = true ->
  source_is_stored kwargs (db w) ->
  unique_together self (table self (db w)) ->
  exists res w1 t1,
    resolve settings self storage name create um ccm
      (kwargs_update kwargs (get_storage_hash storage) name) key w
    = (Ok res, w1, t1).
Proof.
  intros Hwf Hstored Huniq.
  unfold resolve, when, except_DoesNotExist, bind, ret, cache_get, cache_set,
    storage_exists.
  destruct create.
  - destruct um as [v|];
      [destruct (get_or_create_ok self kwargs (get_storage_hash storage) name
                   (Some (mkDefaults (Some v))) w Hwf Hstored Huniq)
         as (r & c & w1 & t & Hgoc)
      |destruct (get_or_create_ok self kwargs (get_storage_hash storage) name
                   (kw_defaults kwargs) w Hwf Hstored Huniq)
         as (r & c & w1 & t & Hgoc)];
      unfold set_default_modified, kwargs_update in *; cbn in Hgoc |- *;
      rewrite Hgoc; eauto.
  - destruct (get_or_create_ok self kwargs (get_storage_hash storage) name
                None w Hwf Hstored Huniq) as (r & c & w1 & t & Hgoc).
    assert (Hget :
      (exists r0, qs_get self (_get_thumbnail_manager settings self)
                 (pop_defaults
                    (kwargs_update kwargs (get_storage_hash storage) name)) w
               = (Ok r0, w, [EvGet self (_get_thumbnail_manager settings self)
                               (pop_defaults
                                  (kwargs_update kwargs
                                     (get_storage_hash storage) name))]))
      \/ qs_get self (_get_thumbnail_manager settings self)
           (pop_defaults (kwargs_update kwargs (get_storage_hash storage) name)) w
         = (Raise DoesNotExist, w,
            [EvGet self (_get_thumbnail_manager settings self)
               (pop_defaults
                  (kwargs_update kwargs (get_storage_hash storage) name))])).
    { destruct (selected_at_most_one self kwargs (get_storage_hash storage)
                  name None w Hwf Huniq) as [Hsel|[r0 Hsel]].
      - right. by apply qs_get_none.
      - left. exists r0. by apply qs_get_one. }
    unfold pop_defaults, kwargs_update in *. cbn in Hgoc, Hget |- *.
    destruct (caching_enabled settings); reduce;
      [destruct (cache_lookup key w); [eauto|]|];
      (destruct Hget as [[r0 ->] | ->]; reduce; [eauto|]);
      (destruct ccm; [|eauto]);
      (destruct (exists_ storage name); [|eauto]);
      rewrite Hgoc; reduce; eauto.
Qed.

(** X4: the module's own lookups do not fail on well-formed input: on a
    table that satisfies [unique_together], a call of [get_file] whose keyword
    arguments fit the manager and do not repeat the parameter [name], and
    whose [source], if any, is stored, raises none of [KeyError],
    [FieldError], [MultipleObjectsReturned] and [IntegrityError]: as far as
    the store, the cache and the storage answer, it returns a record or
    [None]. *)
Theorem get_file_never_raises_on_unique_table
    settings version self storage name create update_modified
    check_cache_miss kwargs w :
  well_formed self kwargs = true ->
  kw_name kwargs = None ->
  source_is_stored kwargs (db w) ->
  unique_together self (table self (db w)) ->
  exists r wf evs,
    get_file settings version self storage name create update_modified
      check_cache_miss kwargs w = (Ok r, wf, evs).
Proof.
  intros Hwf _ Hstored Huniq. rewrite get_file_unfold.
  assert (exists key,
    derived_key version self kwargs (get_storage_hash storage) name = Ok key)
    as [key ->].
  { unfold derived_key, well_formed in *.
    destruct self, (kw_source kwargs); eauto; done. }
  destruct (resolve_ok settings self storage name create update_modified
              check_cache_miss kwargs key w Hwf Hstored Huniq)
    as (res & w1 & t1 & ->).
  destruct res as [[obj created]|]; [|eauto].
  destruct (reconcile_ok settings self update_modified key obj created w1)
    as (o & wf & t & ->).
  eauto.
Qed.

(** ** Errors *)

(** X5: a thumbnail lookup without a [source] keyword argument raises
    [KeyError] while the cache key is built (line 87), before the cache, the
    store or the storage is consulted; nothing changes. *)
Theorem thumbnail_lookup_without_source_raises_KeyError
    settings version storage name create update_modified check_cache_miss
    kwargs w :
  kw_source kwargs = None ->
  get_file settings version ThumbnailManager storage name create
    update_modified check_cache_miss kwargs w
  = (Raise (KeyError "source"), w, []).
Proof.
  intros Hsrc. rewrite get_file_unfold. unfold derived_key. by rewrite Hsrc.
Qed.

Lemma thumbnail_lookup_without_source_witness :
  get_file caching_on "2.8" ThumbnailManager sample_storage "img.png" true
    (Some 5) true no_kwargs stored_world
  = (Raise (KeyError "source"), stored_world, []).
Proof.
  apply (thumbnail_lookup_without_source_raises_KeyError caching_on "2.8"
           sample_storage "img.png" true (Some 5) true no_kwargs stored_world).
  reflexivity.
Defined.

Lemma select_many self kw w r1 r2 rest :
  selected self kw w = r1 :: r2 :: rest ->
  select self kw w = (Raise MultipleObjectsReturned, w, []).
Proof. unfold selected, select. by intros ->. Qed.

Lemma qs_get_many self sr kw w r1 r2 rest :
  well_formed self kw = true -> selected self kw w = r1 :: r2 :: rest ->
  qs_get self sr kw w = (Raise MultipleObjectsReturned, w, [EvGet self sr kw]).
Proof.
  intros Hwf Hsel. unfold qs_get, bind, emit.
  by rewrite (check_fields_ok _ _ _ Hwf), (select_many _ _ _ _ _ _ Hsel).
Qed.

Lemma get_or_create_many self kw w r1 r2 rest :
  well_formed self kw = true -> selected self kw w = r1 :: r2 :: rest ->
  get_or_create self kw w
  = (Raise MultipleObjectsReturned, w, [EvGetOrCreate self kw false]).
Proof.
  intros Hwf Hsel. unfold get_or_create, bind.
  by rewrite (check_fields_ok _ _ _ Hwf), (select_many _ _ _ _ _ _ Hsel).
Qed.

(** X6: when several stored rows match the lookups, a call that reaches the
    store (the create path, or the read path without a live cache entry)
    raises [MultipleObjectsReturned]; it sends no [update], writes nothing to
    the cache and leaves the world as it was. *)
Theorem duplicates_raise_MultipleObjectsReturned
    settings version self storage name create update_modified
    check_cache_miss kwargs w key r1 r2 rest :
  well_formed self kwargs = true ->
  derived_key version self kwargs (get_storage_hash storage) name = Ok key ->
  selected self (kwargs_update kwargs (get_storage_hash storage) name) w
    = r1 :: r2 :: rest ->
  create = true \/ caching_enabled settings = false \/ cache_lookup key w = None ->
  exists evs,
    get_file settings version self storage name create update_modified
      check_cache_miss kwargs w = (Raise MultipleObjectsReturned, w, evs)
    /\ count_events is_update evs = 0%nat
    /\ count_events is_cache_write evs = 0%nat.
Proof.
  intros Hwf Hkey Hsel Hpath. unfold_get_file.
  rewrite derived_key_run, Hkey. reduce.
  destruct create.
  - destruct update_modified;
      rewrite (get_or_create_many _ _ _ r1 r2 rest) by done; reduce; eauto.
  - destruct Hpath as [? | [-> | Hmiss]]; [done| |].
    + rewrite (qs_get_many _ _ _ _ r1 r2 rest) by done. reduce. eauto.
    + destruct (caching_enabled settings); reduce; rewrite ?Hmiss;
        rewrite (qs_get_many _ _ _ _ r1 r2 rest) by done; reduce; eauto.
Qed.

(** ** What a call does to the cache *)

Ltac cache_effect_done :=
  inversion 1; subst; reduce;
  first [ by left
        | right; split; [done|]; split; [done|];
          eexists _, _; split; reflexivity ].

Lemma resolve_cache_effect settings self storage name create um ccm kwargs key
    w res w1 t1 :
  resolve settings self storage name create um ccm kwargs key w = (res, w1, t1) ->
  cache w1 = cache w
  \/ (caching_enabled settings = true /\ create = false
      /\ exists o c, res = Ok (Some (o, c))
                     /\ cache w1 = <[key := mkEntry o None]> (cache w)).
Proof.
  unfold resolve, when, except_DoesNotExist, bind, ret, cache_get, cache_set,
    storage_exists.
  destruct create.
  - destruct (get_or_create _ _ w) as [[res0 w2] t2] eqn:Hgoc.
    destruct (get_or_create_cases _ _ _ _ _ _ Hgoc)
      as [[-> Hno] | (Hsel & Hsrc & -> & ->)];
      [destruct res0 as [[r c]|e]|]; inversion 1; subst; by left.
  - destruct (qs_get_run self (_get_thumbnail_manager settings self)
                (pop_defaults kwargs) w) as [r Hget].
    destruct (caching_enabled settings); reduce;
      [destruct (cache_lookup key w); [inversion 1; subst; by left|]|];
      rewrite Hget;
      (destruct r as [r|[]]; reduce; try cache_effect_done);
      (destruct ccm; [|inversion 1; subst; by left]);
      (destruct (exists_ storage name); [|inversion 1; subst; by left]);
      destruct (get_or_create _ _ w) as [[res0 w2] t2] eqn:Hgoc;
      (destruct (get_or_create_cases _ _ _ _ _ _ Hgoc)
         as [[-> Hno] | (Hsel & Hsrc & -> & ->)];
       [destruct res0 as [[r c]|e]|]; reduce; cache_effect_done).
Qed.

Lemma reconcile_cache_effect settings self um key obj created w r wf t :
  reconcile settings self um key obj created w = (r, wf, t) ->
  (r = Ok obj /\ cache wf = cache w)
  \/ (caching_enabled settings = true
      /\ exists o, r = Ok o /\ cache wf = <[key := mkEntry o None]> (cache w)).
Proof.
  unfold reconcile, bind, ret, update_modified_field, cache_set.
  destruct um as [v|]; [|inversion 1; subst; by left].
  destruct created; reduce; [inversion 1; subst; by left|].
  destruct (negb (modified obj =? v)); reduce; [|inversion 1; subst; by left].
  destruct (caching_enabled settings); reduce; inversion 1; subst; reduce;
    [right; eauto | by left].
Qed.

(** X7: all a call of [get_file] can do to the cache is to store the record
    it returns, without expiry, under its own key: afterwards the cache is
    either as it was, or the old cache with that one entry set; this happens
    only with caching on and a record returned. *)
Theorem get_file_only_caches_what_it_returns
    settings version self storage name create update_modified
    check_cache_miss kwargs w key r wf evs :
  derived_key version self kwargs (get_storage_hash storage) name = Ok key ->
  get_file settings version self storage name create update_modified
    check_cache_miss kwargs w = (r, wf, evs) ->
  cache wf = cache w
  \/ (caching_enabled settings = true
      /\ exists obj, r = Ok (Some obj)
                     /\ cache wf = <[key := mkEntry obj None]> (cache w)).
Proof.
  intros Hkey. rewrite get_file_unfold, Hkey.
  destruct (resolve _ _ _ _ _ _ _ _ _ w) as [[res w1] t1] eqn:Hres.
  apply resolve_cache_effect in Hres as Heff.
  destruct res as [[[obj created]|]|e];
    try (inversion 1; subst;
         destruct Heff as [-> | (_ & _ & o & c & Ho & _)];
         [by left | discriminate]).
  destruct (reconcile _ _ _ _ _ _ w1) as [[r2 w2] t2] eqn:Hrec.
  apply reconcile_cache_effect in Hrec as Hreff.
  assert (Hout :
    cache w2 = cache w
    \/ (caching_enabled settings = true
        /\ exists o, r2 = Ok o /\ cache w2 = <[key := mkEntry o None]> (cache w))).
  { destruct Heff as [Hc | (Hon & _ & o & c & Ho & Hc)];
      destruct Hreff as [[-> Hc2] | (Hon2 & o2 & -> & Hc2)]; rewrite Hc2, Hc.
    - by left.
    - right. eauto.
    - inversion Ho; subst. right. eauto.
    - right. split; [done|]. exists o2. by rewrite insert_insert_eq. }
  destruct r2 as [o|e]; inversion 1; subst;
    (destruct Hout as [? | (Hon & o' & Ho' & Hc)]; [by left|]);
    [inversion Ho'; subst; right; eauto | discriminate].
Qed.

(** ** Reading through the cache *)

Lemma cache_lookup_insert key obj c d clock :
  cache_lookup key (mkWorld d (<[key := mkEntry obj None]> c) clock) = Some obj.
Proof. unfold cache_lookup. cbn. by rewrite lookup_insert_eq. Qed.

Lemma resolve_read_leaves_record_cached settings self storage name um ccm
    kwargs key w o c w1 t1 :
  caching_enabled settings = true ->
  resolve settings self storage name false um ccm kwargs key w
    = (Ok (Some (o, c)), w1, t1) ->
  cache_lookup key w1 = Some o.
Proof.
  intros Hon.
  unfold resolve, when, except_DoesNotExist, bind, ret, cache_get, cache_set,
    storage_exists.
  rewrite Hon.
  destruct (cache_lookup key w) as [o0|] eqn:Hhit;
    [inversion 1; by subst|].
  destruct (qs_get _ _ _ w) as [[[r|e] w2] t2]; reduce.
  - inversion 1; subst. apply cache_lookup_insert.
  - destruct e; try by inversion 1.
    destruct ccm; [|by inversion 1]. reduce.
    destruct (exists_ storage name); [|by inversion 1].
    destruct (get_or_create _ _ w2) as [[[[r c0]|e] w3] t3]; reduce;
      inversion 1; subst. apply cache_lookup_insert.
Qed.

Lemma reconcile_leaves_record_cached settings self um key obj created w o wf t :
  caching_enabled settings = true ->
  cache_lookup key w = Some obj ->
  reconcile settings self um key obj created w = (Ok o, wf, t) ->
  cache_lookup key wf = Some o.
Proof.
  intros Hon Hhit.
  unfold reconcile, bind, ret, update_modified_field, cache_set. rewrite Hon.
  destruct um as [v|]; [|inversion 1; by subst].
  destruct created; reduce; [inversion 1; by subst|].
  destruct (negb (modified obj =? v)); reduce; inversion 1; subst; [|done].
  apply cache_lookup_insert.
Qed.

(** The entry left by a successful read, as the next call finds it. *)
Lemma read_path_leaves_the_returned_record_cached_aux
    settings version self storage name update_modified check_cache_miss
    kwargs w key obj wf evs :
  caching_enabled settings = true ->
  derived_key version self kwargs (get_storage_hash storage) name = Ok key ->
  get_file settings version self storage name false update_modified
    check_cache_miss kwargs w = (Ok (Some obj), wf, evs) ->
  cache_lookup key wf = Some obj.
Proof.
  intros Hon Hkey. rewrite get_file_unfold, Hkey.
  destruct (resolve _ _ _ _ _ _ _ _ _ w) as [[res w1] t1] eqn:Hres.
  destruct res as [[[o created]|]|e]; [|by inversion 1..].
  apply (resolve_read_leaves_record_cached _ _ _ _ _ _ _ _ _ _ _ _ _ Hon) in Hres.
  destruct (reconcile _ _ _ _ _ _ w1) as [[[o2|e] w2] t2] eqn:Hrec;
    inversion 1; subst.
  by eapply reconcile_leaves_record_cached.
Qed.

(** X8: write-through on the read path: with caching on, whenever a call
    with [create=False] returns a record, that record is the live entry under
    the key afterwards. *)
Theorem read_path_leaves_the_returned_record_cached
    settings version self storage name update_modified check_cache_miss
    kwargs w key obj wf evs :
  caching_enabled settings = true ->
  derived_key version self kwargs (get_storage_hash storage) name = Ok key ->
  get_file settings version self storage name false update_modified
    check_cache_miss kwargs w = (Ok (Some obj), wf, evs) ->
  cache_lookup key wf = Some obj.
Proof.
  intros Hon Hkey. rewrite get_file_unfold, Hkey.
  destruct (resolve _ _ _ _ _ _ _ _ _ w) as [[res w1] t1] eqn:Hres.
  destruct res as [[[o created]|]|e]; [|by inversion 1..].
  apply (resolve_read_leaves_record_cached _ _ _ _ _ _ _ _ _ _ _ _ _ Hon) in Hres.
  destruct (reconcile _ _ _ _ _ _ w1) as [[[o2|e] w2] t2] eqn:Hrec;
    inversion 1; subst.
  by eapply reconcile_leaves_record_cached.
Qed.

(** A call on the read path that finds a live entry is that entry followed
    by the reconciliation; the store is not asked. *)
Lemma get_file_cache_hit settings version self storage name um ccm kwargs w key obj :
  caching_enabled settings = true ->
  derived_key version self kwargs (get_storage_hash storage) name = Ok key ->
  cache_lookup key w = Some obj ->
  get_file settings version self storage name false um ccm kwargs w
  = match reconcile settings self um key obj false w with
    | (Ok o, w2, t2) => (Ok (Some o), w2, EvCacheGet key :: t2)
    | (Raise e, w2, t2) => (Raise e, w2, EvCacheGet key :: t2)
    end.
Proof.
  intros Hon Hkey Hhit. rewrite get_file_unfold, Hkey.
  unfold resolve, bind, ret, cache_get. rewrite Hon, Hhit. reduce.
  by destruct (reconcile _ _ _ _ _ _ w) as [[[o|e] w2] t2].
Qed.

Lemma reconcile_sends_no_lookup settings self um key obj created w :
  count_events is_lookup (reconcile settings self um key obj created w).2 = 0%nat.
Proof.
  apply count_events_none.
  by apply (emits_reconcile (fun e => is_lookup e = false)).
Qed.

(** X9: after a call with [create=False] has returned a record with caching
    on, the next such call for the same file is served from the cache: it
    returns a record without any [get], [get_or_create] or [exists], and
    without [update_modified] it returns the same record, leaves the world as
    it is and makes the single call [cache.get]. *)
Theorem second_read_is_served_from_the_cache
    settings version self storage name update_modified check_cache_miss
    kwargs w key obj w1 evs1 :
  caching_enabled settings = true ->
  derived_key version self kwargs (get_storage_hash storage) name = Ok key ->
  get_file settings version self storage name false update_modified
    check_cache_miss kwargs w = (Ok (Some obj), w1, evs1) ->
  (forall ccm,
     get_file settings version self storage name false None ccm kwargs w1
     = (Ok (Some obj), w1, [EvCacheGet key]))
  /\ (forall um ccm,
        exists o w2 evs2,
          get_file settings version self storage name false um ccm kwargs w1
          = (Ok (Some o), w2, evs2)
          /\ count_events is_lookup evs2 = 0%nat).
Proof.
  intros Hon Hkey Hfirst.
  pose proof (read_path_leaves_the_returned_record_cached_aux settings version
                self storage name update_modified check_cache_miss kwargs w key
                obj w1 evs1 Hon Hkey Hfirst) as Hhit.
  split.
  - intros ccm. by rewrite (get_file_cache_hit _ _ _ _ _ _ _ _ _ key obj).
  - intros um ccm. rewrite (get_file_cache_hit _ _ _ _ _ _ _ _ _ key obj) by done.
    pose proof (reconcile_sends_no_lookup settings self um key obj false w1) as Hq.
    destruct (reconcile_ok settings self um key obj false w1) as (o & w2 & t2 & Hrec).
    rewrite Hrec in Hq |- *. eexists _, _, _. split; [reflexivity|].
    change (EvCacheGet key :: t2) with ([EvCacheGet key] ++ t2).
    cbn [snd] in Hq. by rewrite count_events_app, Hq.
Qed.

(** ** When [get_file] returns [None] *)

Lemma qs_get_DoesNotExist self sr kw w w1 t :
  qs_get self sr kw w = (Raise DoesNotExist, w1, t) -> selected self kw w = [].
Proof.
  unfold qs_get, bind, emit, selected.
  destruct (check_fields_cases self kw w) as [[-> _] | ->]; [|by inversion 1].
  unfold select. by destruct (filter _ _) as [|r0 [|r1 l]].
Qed.

Lemma resolve_None settings self storage name create um ccm kwargs key w w1 t1 :
  resolve settings self storage name create um ccm kwargs key w
    = (Ok None, w1, t1) ->
  create = false
  /\ (caching_enabled settings = true -> cache_lookup key w = None)
  /\ selected self (pop_defaults kwargs) w = []
  /\ ccm && exists_ storage name = false
  /\ w1 = w
  /\ count_events is_store_write t1 = 0%nat
  /\ count_events is_cache_write t1 = 0%nat.
Proof.
  unfold resolve, when, except_DoesNotExist, bind, ret, cache_get, cache_set,
    storage_exists.
  destruct create.
  { by destruct (get_or_create _ _ w) as [[[[r c]|e] w2] t2]. }
  destruct (qs_get_run self (_get_thumbnail_manager settings self)
              (pop_defaults kwargs) w) as [r Hget].
  destruct (caching_enabled settings); reduce;
    [destruct (cache_lookup key w) eqn:Hhit; [by inversion 1|]|];
    rewrite Hget;
    (destruct r as [r|e]; reduce; [by inversion 1|]);
    (destruct e; try by inversion 1);
    apply qs_get_DoesNotExist in Hget;
    (destruct ccm; reduce;
     [destruct (exists_ storage name) eqn:Hex;
      [by destruct (get_or_create _ _ w) as [[[[r c]|e] w2] t2]|]|]);
    inversion 1; subst; by repeat split.
Qed.

(** X10: for keyword arguments that fit the manager, [get_file] returns
    [None] exactly when [create] is false, the cache has no live entry (or
    caching is off), no stored row matches, and [check_cache_miss] is false or
    the storage does not have the file; it then leaves the world as it was. *)
Theorem get_file_returns_None_exactly_when
    settings version self storage name create update_modified
    check_cache_miss kwargs w key :
  well_formed self kwargs = true ->
  derived_key version self kwargs (get_storage_hash storage) name = Ok key ->
  ((exists wf evs,
      get_file settings version self storage name create update_modified
        check_cache_miss kwargs w = (Ok None, wf, evs))
   <-> create = false
       /\ (caching_enabled settings = true -> cache_lookup key w = None)
       /\ selected self (kwargs_update kwargs (get_storage_hash storage) name) w = []
       /\ check_cache_miss && exists_ storage name = false)
  /\ (forall wf evs,
        get_file settings version self storage name create update_modified
          check_cache_miss kwargs w = (Ok None, wf, evs) ->
        wf = w
        /\ count_events is_store_write evs = 0%nat
        /\ count_events is_cache_write evs = 0%nat).
Proof.
  intros Hwf Hkey.
  assert (Hfwd : forall wf evs,
    get_file settings version self storage name create update_modified
      check_cache_miss kwargs w = (Ok None, wf, evs) ->
    create = false
    /\ (caching_enabled settings = true -> cache_lookup key w = None)
    /\ selected self (kwargs_update kwargs (get_storage_hash storage) name) w = []
    /\ check_cache_miss && exists_ storage name = false
    /\ wf = w
    /\ count_events is_store_write evs = 0%nat
    /\ count_events is_cache_write evs = 0%nat).
  { intros wf evs. rewrite get_file_unfold, Hkey.
    destruct (resolve _ _ _ _ _ _ _ _ _ w) as [[res w1] t1] eqn:Hres.
    destruct res as [[[o c]|]|e]; [|inversion 1; subst|by inversion 1].
    - by destruct (reconcile _ _ _ _ _ _ w1) as [[[o2|e] w2] t2].
    - by apply resolve_None in Hres. }
  split; [split|].
  - intros (wf & evs & Hrun). apply Hfwd in Hrun. tauto.
  - intros (-> & Hmiss & Hsel & Hccm).
    unfold_get_file. rewrite derived_key_run, Hkey. reduce.
    destruct (caching_enabled settings); [rewrite (Hmiss eq_refl)|];
      rewrite qs_get_none by done; reduce;
      (destruct check_cache_miss; reduce;
       [cbn in Hccm; rewrite Hccm|]); eauto.
  - intros wf evs Hrun. apply Hfwd in Hrun. tauto.
Qed.

(** ** Creating twice *)

Lemma selected_after_insert self kw kw' w :
  selected self kw w = [] ->
  (forall r, matches kw' r = matches kw r) ->
  selected self kw'
    (mkWorld (set_table self
                (table self (db w) ++ [new_row kw (table self (db w)) (now w)])
                (db w))
             (cache w) (now w))
  = [new_row kw (table self (db w)) (now w)].
Proof.
  unfold selected. intros Hsel Hsame. cbn [db]. rewrite table_set_table.
  rewrite filter_app.
  rewrite (list_filter_iff _ (fun r => matches kw r = true))
    by (intros r; by rewrite Hsame).
  rewrite Hsel, app_nil_l.
  rewrite filter_cons_True by (rewrite Hsame; apply matches_new_row).
  by rewrite filter_nil.
Qed.

(** X11: creating is idempotent: when no stored row matches and the source
    passed for a thumbnail is stored, a call with [create=True] inserts one
    row and returns it, and a second call with the same arguments returns
    that same row, reports it as not created, sends no [update] and leaves the
    world as the first call left it. *)
Theorem create_twice_creates_once
    settings version self storage name update_modified check_cache_miss
    kwargs w :
  well_formed self kwargs = true ->
  source_is_stored kwargs (db w) ->
  selected self (kwargs_update kwargs (get_storage_hash storage) name) w = [] ->
  let kw :=
    match update_modified with
    | Some t =>
        set_default_modified
          (kwargs_update kwargs (get_storage_hash storage) name) t
    | None => kwargs_update kwargs (get_storage_hash storage) name
    end in
  exists obj,
    let w1 := mkWorld (set_table self (table self (db w) ++ [obj]) (db w))
                      (cache w) (now w) in
    is_new_row kw (now w) (table self (db w)) obj
    /\ get_file settings version self storage name true update_modified
         check_cache_miss kwargs w
       = (Ok (Some obj), w1, [EvGetOrCreate self kw true])
    /\ get_file settings version self storage name true update_modified
         check_cache_miss kwargs w1
       = (Ok (Some obj), w1, [EvGetOrCreate self kw false]).
Proof.
  intros Hwf Hstored Hsel kw.
  exists (new_row kw (table self (db w)) (now w)). intros w1.
  assert (exists key,
    derived_key version self kwargs (get_storage_hash storage) name = Ok key)
    as [key Hkey].
  { unfold derived_key, well_formed in *.
    destruct self, (kw_source kwargs); eauto; done. }
  assert (Hfk : foreign_key_ok self kw (db w) = true).
  { apply (foreign_key_ok_stored self kwargs); [done| |done].
    subst kw. by destruct update_modified. }
  assert (Hsel1 : selected self kw w1 = [new_row kw (table self (db w)) (now w)]).
  { subst kw w1. destruct update_modified;
      by apply selected_after_insert. }
  split; [apply new_row_is_new|].
  split; unfold_get_file; rewrite derived_key_run, Hkey; reduce.
  - subst kw w1. destruct update_modified;
      rewrite get_or_create_new by done; reduce; done.
  - subst kw. destruct update_modified as [t|];
      rewrite (get_or_create_found _ _ _ (new_row _ (table self (db w)) (now w)))
        by done; reduce; [|done].
    cbn [modified new_row kw_defaults set_default_modified].
    cbn. by rewrite Z.eqb_refl.
Qed.

(** ** Reconciling with caching off *)

(** X12: with caching off, a call with [update_modified] on a stored record
    whose [modified] differs updates the row, but returns the object as it
    was read, still carrying the old [modified] (line 74 is inside the
    caching guard). *)
Theorem without_cache_the_returned_record_keeps_old_modified
    settings version self storage name create t check_cache_miss kwargs w obj :
  caching_enabled settings = false ->
  well_formed self kwargs = true ->
  selected self (kwargs_update kwargs (get_storage_hash storage) name) w = [obj] ->
  modified obj <> t ->
  exists wf evs,
    get_file settings version self storage name create (Some t)
      check_cache_miss kwargs w = (Ok (Some obj), wf, evs)
    /\ table self (db wf) = update_rows (pk obj) t (table self (db w))
    /\ set_modified t obj ∈ table self (db wf)
    /\ modified obj <> modified (set_modified t obj).
Proof.
  intros Hoff Hwf Hsel Hne.
  assert (exists key,
    derived_key version self kwargs (get_storage_hash storage) name = Ok key)
    as [key Hkey].
  { unfold derived_key, well_formed in *.
    destruct self, (kw_source kwargs); eauto; done. }
  assert (Hneq : (modified obj =? t) = false) by by apply Z.eqb_neq.
  assert (Hin : set_modified t obj ∈ update_rows (pk obj) t (table self (db w))).
  { assert (Hobj : obj ∈ selected self
                     (kwargs_update kwargs (get_storage_hash storage) name) w)
      by (rewrite Hsel; apply list_elem_of_here).
    apply list_elem_of_filter in Hobj as [_ Hobj].
    unfold update_rows. apply list_elem_of_fmap. exists obj.
    by rewrite Z.eqb_refl. }
  unfold_get_file. rewrite derived_key_run, Hkey, Hoff. reduce.
  destruct create.
  - rewrite (get_or_create_found _ _ _ obj) by done. reduce. rewrite Hneq.
    reduce. eexists _, _. split; [reflexivity|]. reduce.
    by rewrite table_set_table.
  - rewrite (qs_get_one _ _ _ _ obj) by done. reduce. rewrite Hneq.
    reduce. eexists _, _. split; [reflexivity|]. reduce.
    by rewrite table_set_table.
Qed.

(** ** Invalidating an entry *)

Lemma cache_configured_when_caching settings :
  caching_enabled settings = true -> truthy (THUMBNAIL_CACHE settings) = true.
Proof. unfold caching_enabled. by intros [? _]%andb_true_iff. Qed.

(** X13: [_delete_cache_key], given the keyword arguments [get_file] builds,
    deletes exactly the entry [get_file] reads: the database and every other
    key are untouched, and the next read, whatever was cached before, asks
    the store, returns the stored row and caches it. *)
Theorem delete_cache_key_then_read_returns_the_stored_row
    settings version self storage name check_cache_miss kwargs w key row :
  caching_enabled settings = true ->
  well_formed self kwargs = true ->
  derived_key version self kwargs (get_storage_hash storage) name = Ok key ->
  selected self (kwargs_update kwargs (get_storage_hash storage) name) w = [row] ->
  exists w1,
    _delete_cache_key settings version self
      (kwargs_update kwargs (get_storage_hash storage) name) w
    = (Ok tt, w1, [EvCacheDelete key])
    /\ db w1 = db w
    /\ cache_lookup key w1 = None
    /\ (forall k, k <> key -> cache w1 !! k = cache w !! k)
    /\ get_file settings version self storage name false None
         check_cache_miss kwargs w1
       = (Ok (Some row),
          on_cache (insert key (mkEntry row None)) w,
          [EvCacheGet key;
           EvGet self (_get_thumbnail_manager settings self)
             (pop_defaults
                (kwargs_update kwargs (get_storage_hash storage) name));
           EvCacheSet key row None]).
Proof.
  intros Hon Hwf Hkey Hsel.
  exists (on_cache (delete key) w).
  assert (Hgone : cache_lookup key (on_cache (delete key) w) = None).
  { unfold cache_lookup, on_cache. cbn. by rewrite lookup_delete_eq. }
  split; [|split; [done|split; [done|split]]].
  - unfold _delete_cache_key, bind, cache_delete.
    rewrite derived_key_run, Hkey.
    by rewrite (cache_configured_when_caching _ Hon).
  - intros k Hne. unfold on_cache. cbn. by apply lookup_delete_ne.
  - unfold_get_file. rewrite derived_key_run, Hkey, Hon. reduce.
    rewrite Hgone. rewrite (qs_get_one _ _ _ _ row) by done. reduce.
    unfold on_cache. cbn. by rewrite insert_delete_eq.
Qed.

(** X14: [_delete_cache_key] fails without deleting anything when a key it
    reads is missing from the keyword arguments ([KeyError], lines 28 and 87)
    and, once the key is built, when [THUMBNAIL_CACHE] is unset, because the
    module global [cache] was never bound ([NameError], lines 10 and 32). *)
Theorem delete_cache_key_failures settings version self kwargs w :
  (kw_storage_hash kwargs = None ->
   _delete_cache_key settings version self kwargs w
   = (Raise (KeyError "storage_hash"), w, []))
  /\ (kw_storage_hash kwargs <> None -> kw_name kwargs = None ->
      _delete_cache_key settings version self kwargs w
      = (Raise (KeyError "name"), w, []))
  /\ (kw_storage_hash kwargs <> None -> kw_name kwargs <> None ->
      self = ThumbnailManager -> kw_source kwargs = None ->
      _delete_cache_key settings version self kwargs w
      = (Raise (KeyError "source"), w, []))
  /\ (forall key,
        _get_cache_key version self kwargs w = (Ok key, w, []) ->
        truthy (THUMBNAIL_CACHE settings) = false ->
        _delete_cache_key settings version self kwargs w
        = (Raise (NameError "cache"), w, [])).
Proof.
  unfold _delete_cache_key, _get_cache_key, getitem, bind, ret, raise.
  repeat split.
  - intros ->. by destruct self.
  - intros Hh ->. destruct (kw_storage_hash kwargs); [|done]. by destruct self.
  - intros Hh Hn -> ->.
    destruct (kw_storage_hash kwargs); [|done].
    by destruct (kw_name kwargs).
  - intros key Hkey ->.
    destruct self, (kw_storage_hash kwargs), (kw_name kwargs);
      try destruct (kw_source kwargs); cbn in *; by inversion Hkey.
Qed.

(** ** Importing the module, continued *)

(** X15: the import of the module succeeds exactly when [THUMBNAIL_CACHE] is
    unset or empty, and then [cache] stays unbound and Django's cache is not
    consulted at all, or the import of [caches] and the lookup of the alias
    both succeed, and then [cache] is bound to that backend.  It fails exactly
    when [THUMBNAIL_CACHE] is set and one of the two steps raises; the
    exception is the one raised, passed through the two [except] clauses,
    which leave anything other than [ImportError] and [KeyError] unchanged. *)
Theorem load_cache_outcomes settings django :
  (forall r,
     load_cache settings django = Ok r
     <-> (truthy (THUMBNAIL_CACHE settings) = false /\ r = None)
         \/ (exists alias c,
               THUMBNAIL_CACHE settings = Some alias
               /\ truthy (THUMBNAIL_CACHE settings) = true
               /\ (exists u, import_caches django = Ok u)
               /\ caches_getitem django alias = Ok c
               /\ r = Some c))
  /\ (forall e,
        load_cache settings django = Raise e
        <-> exists alias e0,
              THUMBNAIL_CACHE settings = Some alias
              /\ truthy (THUMBNAIL_CACHE settings) = true
              /\ e = reraise e0
              /\ (import_caches django = Raise e0
                  \/ ((exists u, import_caches django = Ok u)
                      /\ caches_getitem django alias = Raise e0)))
  /\ (forall e,
        e <> ImportError -> (forall k, e <> KeyError k) -> reraise e = e)
  /\ (truthy (THUMBNAIL_CACHE settings) = false ->
      forall django', load_cache settings django' = Ok None).
Proof.
  unfold load_cache. split; [|split; [|split]].
  - intros r. split.
    + destruct (THUMBNAIL_CACHE settings) as [alias|] eqn:Halias;
        [|inversion 1; by left].
      destruct (truthy (Some alias)) eqn:Hon; [|inversion 1; by left].
      destruct (import_caches django) as [u|e] eqn:Himp; [|discriminate].
      destruct (caches_getitem django alias) as [c|e] eqn:Hget;
        [|discriminate].
      inversion 1; subst. right. exists alias, c. eauto 10.
    + intros [[Hoff ->] | (alias & c & Halias & Hon & [u Himp] & Hget & ->)].
      * destruct (THUMBNAIL_CACHE settings) as [alias|]; [|done].
        by rewrite Hoff.
      * rewrite Halias in Hon |- *. by rewrite Hon, Himp, Hget.
  - intros e. split.
    + destruct (THUMBNAIL_CACHE settings) as [alias|] eqn:Halias;
        [|discriminate].
      destruct (truthy (Some alias)) eqn:Hon; [|discriminate].
      destruct (import_caches django) as [u|e0] eqn:Himp.
      * destruct (caches_getitem django alias) as [c|e0] eqn:Hget;
          [discriminate|].
        inversion 1; subst. exists alias, e0. eauto 10.
      * inversion 1; subst. exists alias, e0. eauto 10.
    + intros (alias & e0 & Halias & Hon & -> & Hfail).
      rewrite Halias in Hon |- *. rewrite Hon.
      by destruct Hfail as [-> | [[u ->] ->]].
  - intros e Hie Hke. destruct e; try done. by destruct (Hke key).
  - intros Hoff django'.
    destruct (THUMBNAIL_CACHE settings) as [alias|]; [|done]. by rewrite Hoff.
Qed.

Lemma get_file_with_caching_off settings version self storage name create um
    ccm kwargs w r wf evs :
  caching_enabled settings = false ->
  get_file settings version self storage name create um ccm kwargs w
    = (r, wf, evs) ->
  cache wf = cache w /\ count_events is_cache_event evs = 0%nat.
Proof.
  intros Hoff Hrun. split.
  - pose proof (commutes_get_file (fun _ => cache w) settings version self
                  storage name create um ccm kwargs) as Hc.
    rewrite <- (on_cache_same w) in Hrun at 1.
    rewrite Hc in Hrun by (intros Hon; congruence).
    destruct (get_file _ _ _ _ _ _ _ _ _ w) as [[r' w'] t'].
    inversion Hrun. done.
  - apply count_events_none.
    pose proof (emits_get_file (fun e => is_cache_event e = false) settings
      version self storage name create um ccm kwargs) as Hem.
    specialize (Hem ltac:(done) ltac:(done) ltac:(done) ltac:(done)
                    ltac:(congruence) ltac:(congruence) w).
    by rewrite Hrun in Hem.
Qed.

Lemma run_calls_with_caching_off settings version calls w rs wf evs :
  caching_enabled settings = false ->
  run_calls settings version calls w = (rs, wf, evs) ->
  cache wf = cache w
  /\ count_events is_cache_event evs = 0%nat
  /\ length rs = length calls.
Proof.
  intros Hoff. revert w rs wf evs.
  induction calls as [|c calls IH]; intros w rs wf evs; cbn [run_calls].
  - by inversion 1.
  - destruct (get_file _ _ _ _ _ _ _ _ _ w) as [[r w1] t1] eqn:Hcall.
    destruct (run_calls _ _ calls w1) as [[rs' w2] t2] eqn:Hrest.
    inversion 1; subst.
    apply (get_file_with_caching_off _ _ _ _ _ _ _ _ _ _ _ _ _ Hoff) in Hcall
      as [Hc Hq].
    apply IH in Hrest as (Hc' & Hq' & Hlen).
    rewrite count_events_app, Hq, Hq', Hc', Hc. cbn. by rewrite Hlen.
Qed.

(** X16: with [THUMBNAIL_CACHE] unset, a process that imports the module and
    then makes any sequence of [get_file] calls succeeds at the import,
    whatever Django's cache framework offers, answers every call, and never
    calls a cache. *)
Theorem without_THUMBNAIL_CACHE_no_cache_is_ever_called
    settings version django d clock calls :
  truthy (THUMBNAIL_CACHE settings) = false ->
  exists rs wf evs,
    import_then_resolve settings version django d clock calls
    = (Ok (rs, wf), evs)
    /\ length rs = length calls
    /\ cache wf = ∅
    /\ count_events is_cache_event evs = 0%nat.
Proof.
  intros Hoff. unfold import_then_resolve.
  assert (Hload : load_cache settings django = Ok None).
  { unfold load_cache. destruct (THUMBNAIL_CACHE settings); [|done].
    by rewrite Hoff. }
  rewrite Hload. cbn [default].
  destruct (run_calls _ _ calls _) as [[rs wf] evs] eqn:Hrun.
  apply run_calls_with_caching_off in Hrun as (Hc & Hq & Hlen).
  - eexists _, _, _. split; [reflexivity|]. by repeat split.
  - unfold caching_enabled. by rewrite Hoff.
Qed.

(** ** Foreign keys *)

Lemma update_rows_keeps_rows id value t r :
  r ∈ t ->
  exists r', r' ∈ update_rows id value t /\ pk r' = pk r
             /\ source_id r' = source_id r.
Proof.
  intros Hin. exists (if pk r =? id then set_modified value r else r).
  split; [|by destruct (pk r =? id)].
  unfold update_rows. apply list_elem_of_fmap. by exists r.
Qed.

Lemma update_rows_rows_were_there id value t r' :
  r' ∈ update_rows id value t ->
  exists r, r ∈ t /\ pk r' = pk r /\ source_id r' = source_id r.
Proof.
  unfold update_rows. intros (r & -> & Hin)%list_elem_of_fmap.
  exists r. split; [done|]. by destruct (pk r =? id).
Qed.

Lemma db_step_referential_integrity self src clock d d' :
  db_step self src clock d d' ->
  (self = ThumbnailManager ->
   exists s s', src = Some s /\ s' ∈ sources d /\ pk s' = pk s) ->
  referential_integrity d -> referential_integrity d'.
Proof.
  intros [-> | [(kw & Hsel & Hnone & Hks & ->) | (id & value & ->)]] Hsrc
         [Hthumbs Hdims]; [done|..]; destruct self; cbn [set_table table];
    (split; cbn [sources thumbnails dimensions]).
  - intros t (s & Hs & Ht)%Hthumbs. exists s. split; [|done].
    apply elem_of_app. by left.
  - done.
  - destruct (Hsrc eq_refl) as (s & s' & -> & Hs' & Hpk).
    intros t [Hin | ->%list_elem_of_singleton]%elem_of_app; [by apply Hthumbs|].
    exists s'. split; [done|]. cbn. by rewrite Hks, Hpk.
  - intros x (t & Ht & Hx)%Hdims. exists t. split; [|done].
    apply elem_of_app. by left.
  - intros t (s & Hs & Ht)%Hthumbs.
    destruct (update_rows_keeps_rows id value _ _ Hs) as (s' & Hs' & Hpk & _).
    exists s'. split; [done|]. by rewrite Hpk.
  - done.
  - intros t' (t & Ht & Hpk & Hsid)%update_rows_rows_were_there.
    destruct (Hthumbs t Ht) as (s & Hs & Hts). exists s. by rewrite Hsid.
  - intros x (t & Ht & Hx)%Hdims.
    destruct (update_rows_keeps_rows id value _ _ Ht) as (t' & Ht' & Hpk & _).
    exists t'. split; [done|]. by rewrite Hpk.
Qed.

(** X17: a call of [get_file] keeps every foreign key pointing at a stored
    row, provided a thumbnail lookup is given a [source] that is stored: the
    thumbnail it may insert references that source, and an [update] changes
    no key. *)
Theorem get_file_keeps_referential_integrity
    settings version self storage name create update_modified
    check_cache_miss kwargs w r wf evs :
  referential_integrity (db w) ->
  (forall s, kw_source kwargs = Some s ->
             exists s', s' ∈ sources (db w) /\ pk s' = pk s) ->
  get_file settings version self storage name create update_modified
    check_cache_miss kwargs w = (r, wf, evs) ->
  referential_integrity (db wf).
Proof.
  intros Hint Hstored Hrun.
  destruct (kw_source kwargs) as [s|] eqn:Hsrc.
  - apply get_file_db_step in Hrun as [_ Hstep]. rewrite Hsrc in Hstep.
    eapply db_step_referential_integrity; [exact Hstep| |done].
    intros _. destruct (Hstored s eq_refl) as (s' & Hs' & Hpk). eauto.
  - destruct self.
    + apply get_file_db_step in Hrun as [_ Hstep].
      eapply db_step_referential_integrity; [exact Hstep|discriminate|done].
    + rewrite get_file_unfold in Hrun. unfold derived_key in Hrun.
      rewrite Hsrc in Hrun. by inversion Hrun; subst.
Qed.

(** X18: cascading deletion leaves no dangling foreign key: after
    [Thumbnail.delete] and after [Source.delete] every remaining thumbnail
    still has its source and every remaining dimensions row its thumbnail. *)
Theorem cascading_delete_keeps_referential_integrity id d :
  referential_integrity d ->
  (exists d1, Thumbnail_delete id d = Ok d1 /\ referential_integrity d1)
  /\ (exists d2, Source_delete id d = Ok d2 /\ referential_integrity d2).
Proof.
  intros [Hthumbs Hdims]. split.
  - eexists. split; [apply Thumbnail_delete_spec|]. split; cbn.
    + intros t [_ Ht]%list_elem_of_filter. by apply Hthumbs.
    + intros x [Hne Hx]%list_elem_of_filter.
      destruct (Hdims x Hx) as (t & Ht & Hxt). exists t. split; [|done].
      apply list_elem_of_filter. split; [by rewrite <- Hxt|done].
  - unfold Source_delete. cbn [on_related Thumbnail_source_on_delete].
    destruct (Thumbnail_delete_all_spec (pk <$> thumbnails_of id d) d)
      as (d1 & -> & Hs & Ht & Hx).
    eexists. split; [reflexivity|]. split; cbn.
    + intros t [Hin Hnot]%Ht.
      destruct (Hthumbs t Hin) as (s & Hsin & Hts). exists s. split; [|done].
      apply list_elem_of_filter. split; [|by rewrite Hs].
      intros Hpk. apply Hnot. apply list_elem_of_fmap_2.
      unfold thumbnails_of. apply list_elem_of_filter. split; [|done].
      by rewrite Hts, Hpk.
    + intros x [Hin Hnot]%Hx.
      destruct (Hdims x Hin) as (t & Htin & Hxt). exists t. split; [|done].
      apply Ht. split; [done|]. by rewrite <- Hxt.
Qed.

(** ** Strings built by the module *)

Lemma lacks_app_cons c a s : lacks c (a +:+ String c s) = false.
Proof.
  induction a as [|x a IH]; cbn [lacks]; cbv [String.append];
    fold String.append; cbn [lacks].
  - by rewrite Stdlib.Strings.Ascii.eqb_refl.
  - rewrite IH. apply andb_false_r.
Qed.

(** A string is split in one way at the first occurrence of a character. *)
Lemma lacks_prefix_inj c a b s1 s2 :
  lacks c a = true -> lacks c b = true ->
  a +:+ String c s1 = b +:+ String c s2 -> a = b /\ s1 = s2.
Proof.
  revert b. induction a as [|x a IH]; intros [|y b]; cbn [lacks];
    cbv [String.append]; fold String.append; intros Ha Hb Heq.
  - by inversion Heq.
  - inversion Heq; subst. by rewrite Stdlib.Strings.Ascii.eqb_refl in Hb.
  - inversion Heq; subst. by rewrite Stdlib.Strings.Ascii.eqb_refl in Ha.
  - inversion Heq; subst.
    apply andb_true_iff in Ha as [_ Ha]. apply andb_true_iff in Hb as [_ Hb].
    destruct (IH b Ha Hb) as [-> ->]; done.
Qed.

(** ... and in one way at the last occurrence. *)
Lemma lacks_suffix_inj c a b p1 p2 :
  lacks c p1 = true -> lacks c p2 = true ->
  a +:+ String c p1 = b +:+ String c p2 -> a = b /\ p1 = p2.
Proof.
  intros H1 H2. revert b. induction a as [|x a IH]; intros [|y b];
    cbv [String.append]; fold String.append; intros Heq.
  - by inversion Heq.
  - inversion Heq; subst. by rewrite lacks_app_cons in H1.
  - inversion Heq; subst. by rewrite lacks_app_cons in H2.
  - inversion Heq; subst. destruct (IH b) as [-> ->]; done.
Qed.

Lemma pretty_N_go_lacks c x s :
  (forall d, pretty_N_char d <> c) ->
  lacks c s = true -> lacks c (pretty_N_go x s) = true.
Proof.
  intros Hdigit. revert s.
  induction (N.lt_wf_0 x) as [x _ IH]; intros s Hs.
  assert (x = 0 \/ 0 < x)%N as [->|Hpos] by lia.
  - by rewrite pretty_N_go_0.
  - rewrite pretty_N_go_step by done. apply IH; [by apply N.div_lt|].
    cbn [lacks]. rewrite Hs, andb_true_r. apply negb_true_iff.
    apply Stdlib.Strings.Ascii.eqb_neq, Hdigit.
Qed.

Lemma pretty_N_lacks c (n : N) :
  (forall d, pretty_N_char d <> c) -> lacks c (pretty n) = true.
Proof.
  intros Hdigit. unfold pretty, pretty_N.
  destruct (decide (n = 0%N)); [|by apply pretty_N_go_lacks].
  cbn [lacks]. rewrite andb_true_r. apply negb_true_iff.
  apply Stdlib.Strings.Ascii.eqb_neq. apply (Hdigit 0%N).
Qed.

Lemma digits_are_not_colon d : pretty_N_char d <> colon.
Proof. unfold pretty_N_char. by repeat case_match. Qed.

Lemma digits_are_not_x d : pretty_N_char d <> letter_x.
Proof. unfold pretty_N_char. by repeat case_match. Qed.

Lemma pretty_Z_lacks_colon (z : Z) : lacks colon (pretty z) = true.
Proof.
  destruct z as [|p|p]; [done|..].
  - apply (pretty_N_lacks colon (Npos p)), digits_are_not_colon.
  - change (pretty (Z.neg p))
      with (String (Stdlib.Strings.Ascii.ascii_of_nat 45) (pretty (Npos p))).
    cbn [lacks]. rewrite (pretty_N_lacks colon (Npos p)); [done|].
    apply digits_are_not_colon.
Qed.

(** X19: distinct files never share a cache entry: when storage hashes hold
    no colon (they are hexadecimal digests), the key of [FileManager]
    determines the storage hash and the name, and the key of
    [ThumbnailManager] determines the storage hash, the name and the source. *)
Theorem cache_keys_identify_the_file version h1 n1 p1 h2 n2 p2 :
  lacks colon h1 = true -> lacks colon h2 = true ->
  (FileManager_key version h1 n1 = FileManager_key version h2 n2 ->
   h1 = h2 /\ n1 = n2)
  /\ (ThumbnailManager_key version h1 n1 p1 = ThumbnailManager_key version h2 n2 p2 ->
      h1 = h2 /\ n1 = n2 /\ p1 = p2).
Proof.
  intros H1 H2. unfold FileManager_key, ThumbnailManager_key. split; intros Heq;
    do 3 apply (inj (String.app _)) in Heq.
  - change (h1 +:+ String colon n1 = h2 +:+ String colon n2) in Heq.
    by apply lacks_prefix_inj in Heq.
  - change (h1 +:+ String colon (n1 +:+ String colon (pretty p1))
            = h2 +:+ String colon (n2 +:+ String colon (pretty p2))) in Heq.
    apply lacks_prefix_inj in Heq as [-> Heq]; [|done..].
    apply lacks_suffix_inj in Heq as [-> Heq];
      [|apply pretty_Z_lacks_colon..].
    by apply (inj pretty) in Heq.
Qed.

Lemma str_option_lacks_x v : lacks letter_x (str_option v) = true.
Proof.
  destruct v as [n|]; [|done]. apply pretty_N_lacks, digits_are_not_x.
Qed.

Lemma str_option_inj v1 v2 : str_option v1 = str_option v2 -> v1 = v2.
Proof.
  assert (Hnone : forall n : N, pretty n <> "None").
  { intros n Heq.
    pose proof (pretty_N_lacks (Stdlib.Strings.Ascii.ascii_of_nat 78) n) as Hl.
    rewrite Heq in Hl. discriminate Hl.
    intros d. unfold pretty_N_char. by repeat case_match. }
  destruct v1 as [a|], v2 as [b|]; cbn; intros Heq; try done.
  - by apply (inj pretty) in Heq as ->.
  - by destruct (Hnone a).
  - by destruct (Hnone b).
Qed.

(** X20: the text of a [ThumbnailDimensions] row determines its size: two
    rows print alike only if they agree on width and height, unknown values
    included. *)
Theorem ThumbnailDimensions_str_determines_size d1 d2 :
  ThumbnailDimensions_str d1 = ThumbnailDimensions_str d2 -> size d1 = size d2.
Proof.
  unfold ThumbnailDimensions_str, size. intros Heq.
  change (str_option (width d1) +:+ String letter_x (str_option (height d1))
          = str_option (width d2) +:+ String letter_x (str_option (height d2)))
    in Heq.
  apply lacks_prefix_inj in Heq as [Hw Hh]; [|apply str_option_lacks_x..].
  by rewrite (str_option_inj _ _ Hw), (str_option_inj _ _ Hh).
Qed.

(** ** Which lookups a call sends *)

Lemma resolve_lookups settings self storage name create um ccm kwargs key
    w res w1 t1 :
  resolve settings self storage name create um ccm kwargs key w = (res, w1, t1) ->
  Forall
    (fun e =>
       match e with
       | EvGet m sr kw =>
           create = false /\ m = self
           /\ sr = _get_thumbnail_manager settings self
       | EvExists n =>
           create = false /\ ccm = true /\ n = name
           /\ (caching_enabled settings = true -> cache_lookup key w = None)
           /\ selected self (pop_defaults kwargs) w = []
       | _ => True
       end) t1.
Proof.
  unfold resolve, when, except_DoesNotExist, bind, ret, cache_get, cache_set,
    storage_exists.
  destruct create.
  - destruct (get_or_create _ _ w) as [[res0 w2] t2] eqn:Hgoc.
    assert (exists c, t2 = [EvGetOrCreate self
                              match um with
                              | Some t => set_default_modified kwargs t
                              | None => kwargs
                              end c]) as [c ->].
    { destruct res0 as [[r []]|e].
      - apply get_or_create_created in Hgoc as (_ & _ & ->). eauto.
      - apply get_or_create_event in Hgoc as [-> _]; eauto.
      - apply get_or_create_event in Hgoc as [-> _]; eauto. }
    destruct res0; inversion 1; subst; by repeat constructor.
  - destruct (qs_get_run self (_get_thumbnail_manager settings self)
                (pop_defaults kwargs) w) as [r Hget].
    destruct (caching_enabled settings); reduce;
      [destruct (cache_lookup key w) eqn:Hhit;
       [inversion 1; subst; by repeat constructor|]|];
      rewrite Hget;
      (destruct r as [r|e]; reduce;
       [inversion 1; subst; by repeat constructor|]);
      (destruct e; try (inversion 1; subst; by repeat constructor));
      apply qs_get_DoesNotExist in Hget;
      (destruct ccm; reduce; [|inversion 1; subst; by repeat constructor]);
      (destruct (exists_ storage name);
       [|inversion 1; subst; by repeat constructor]);
      destruct (get_or_create _ _ w) as [[res0 w2] t2] eqn:Hgoc;
      (assert (exists c, t2 = [EvGetOrCreate self (pop_defaults kwargs) c])
         as [c ->];
       [destruct res0 as [[r []]|e];
        [apply get_or_create_created in Hgoc as (_ & _ & ->); eauto
        |apply get_or_create_event in Hgoc as [-> _]; eauto..]|]);
      destruct res0 as [[r c0]|e]; reduce; inversion 1; subst;
      by repeat constructor.
Qed.

Lemma get_file_lookups settings version self storage name create um ccm kwargs
    w key r wf evs :
  derived_key version self kwargs (get_storage_hash storage) name = Ok key ->
  get_file settings version self storage name create um ccm kwargs w
    = (r, wf, evs) ->
  Forall
    (fun e =>
       match e with
       | EvGet m sr kw =>
           create = false /\ m = self
           /\ sr = _get_thumbnail_manager settings self
       | EvExists n =>
           create = false /\ ccm = true /\ n = name
           /\ (caching_enabled settings = true -> cache_lookup key w = None)
           /\ selected self
                (kwargs_update kwargs (get_storage_hash storage) name) w = []
       | _ => True
       end) evs.
Proof.
  intros Hkey. rewrite get_file_unfold, Hkey.
  destruct (resolve _ _ _ _ _ _ _ _ _ w) as [[res w1] t1] eqn:Hres.
  apply resolve_lookups in Hres.
  destruct res as [[[obj created]|]|e]; try by inversion 1; subst.
  pose proof (emits_reconcile (fun e => is_lookup e = false) settings self key
                ltac:(done) ltac:(done) um obj created w1) as Hrec.
  destruct (reconcile _ _ _ _ _ _ w1) as [[[o|e] w2] t2]; cbn [snd] in Hrec;
    inversion 1; subst; (apply Forall_app; split; [done|]);
    (eapply Forall_impl; [exact Hrec|]); by intros [].
Qed.

(** X21: the join on the dimensions is asked for exactly by thumbnail
    lookups when [THUMBNAIL_CACHE_DIMENSIONS] is on: every [get] a call sends
    is on the read path, goes to the manager's own table, and carries
    [select_related] only for [ThumbnailManager] with that setting. *)
Theorem dimensions_are_joined_only_for_thumbnails
    settings version self storage name create update_modified
    check_cache_miss kwargs w r wf evs m sr kw :
  get_file settings version self storage name create update_modified
    check_cache_miss kwargs w = (r, wf, evs) ->
  EvGet m sr kw ∈ evs ->
  create = false /\ m = self
  /\ sr = match self with
          | FileManager => false
          | ThumbnailManager => THUMBNAIL_CACHE_DIMENSIONS settings
          end.
Proof.
  intros Hrun Hin.
  destruct (derived_key version self kwargs (get_storage_hash storage) name)
    as [key|e] eqn:Hkey.
  - pose proof (get_file_lookups _ _ _ _ _ _ _ _ _ _ _ _ _ _ Hkey Hrun) as Hall.
    rewrite Forall_forall in Hall. by apply (Hall _ Hin).
  - rewrite get_file_unfold, Hkey in Hrun. inversion Hrun; subst.
    by apply elem_of_nil in Hin.
Qed.

(** X22: the storage backend is asked whether the file exists only on the
    read path with [check_cache_miss] set, for the name that was passed, and
    only after the cache had no live entry and the store no matching row. *)
Theorem storage_is_asked_only_after_both_miss
    settings version self storage name create update_modified
    check_cache_miss kwargs w key r wf evs n :
  derived_key version self kwargs (get_storage_hash storage) name = Ok key ->
  get_file settings version self storage name create update_modified
    check_cache_miss kwargs w = (r, wf, evs) ->
  EvExists n ∈ evs ->
  n = name /\ create = false /\ check_cache_miss = true
  /\ (caching_enabled settings = true -> cache_lookup key w = None)
  /\ selected self (kwargs_update kwargs (get_storage_hash storage) name) w = [].
Proof.
  intros Hkey Hrun Hin.
  pose proof (get_file_lookups _ _ _ _ _ _ _ _ _ _ _ _ _ _ Hkey Hrun) as Hall.
  rewrite Forall_forall in Hall. specialize (Hall _ Hin). cbn in Hall. tauto.
Qed.

(** ** Instances on the sample data *)

Lemma get_file_run_eq settings version self storage name create um ccm kwargs w :
  get_file settings version self storage name create um ccm kwargs w
  = ((get_file settings version self storage name create um ccm kwargs w).1.1,
     (get_file settings version self storage name create um ccm kwargs w).1.2,
     (get_file settings version self storage name create um ccm kwargs w).2).
Proof. by destruct (get_file _ _ _ _ _ _ _ _ _ w) as [[? ?] ?]. Qed.

Lemma get_file_keeps_unique_together_witness :
  unique_together FileManager
    (table FileManager
       (db (get_file caching_on "2.8" FileManager sample_storage "new.png" true
              (Some 5) false no_kwargs stored_world).1.2)).
Proof.
  apply (get_file_keeps_unique_together caching_on "2.8" FileManager
           sample_storage "new.png" true (Some 5) false no_kwargs stored_world
           _ _ _ FileManager (get_file_run_eq _ _ _ _ _ _ _ _ _ _)).
  apply NoDup_singleton.
Defined.

Lemma get_file_keeps_primary_keys_distinct_witness :
  distinct_pks
    (table FileManager
       (db (get_file caching_on "2.8" FileManager sample_storage "new.png" true
              (Some 5) false no_kwargs stored_world).1.2)).
Proof.
  apply (get_file_keeps_primary_keys_distinct caching_on "2.8" FileManager
           sample_storage "new.png" true (Some 5) false no_kwargs stored_world
           _ _ _ FileManager (get_file_run_eq _ _ _ _ _ _ _ _ _ _)).
  apply NoDup_singleton.
Defined.

Lemma get_file_only_adds_rows_witness :
  (exists old extra,
     table FileManager
       (db (get_file caching_on "2.8" FileManager sample_storage "img.png"
              false (Some 5) false no_kwargs stored_world).1.2) = old ++ extra
     /\ Forall2 same_but_modified [sample_source] old
     /\ (length extra <= 1)%nat)
  /\ (forall other, other <> FileManager ->
        table other
          (db (get_file caching_on "2.8" FileManager sample_storage "img.png"
                 false (Some 5) false no_kwargs stored_world).1.2)
        = table other (db stored_world))
  /\ dimensions
       (db (get_file caching_on "2.8" FileManager sample_storage "img.png"
              false (Some 5) false no_kwargs stored_world).1.2) = []
  /\ now (get_file caching_on "2.8" FileManager sample_storage "img.png"
            false (Some 5) false no_kwargs stored_world).1.2 = 100.
Proof.
  apply (get_file_only_adds_rows_or_touches_modified caching_on "2.8"
           FileManager sample_storage "img.png" false (Some 5) false no_kwargs
           stored_world _ _ _ (get_file_run_eq _ _ _ _ _ _ _ _ _ _)).
Defined.

Lemma get_file_never_raises_witness :
  exists r wf evs,
    get_file caching_on "2.8" FileManager sample_storage "img.png" false
      (Some 5) true no_kwargs stored_world = (Ok r, wf, evs).
Proof.
  apply (get_file_never_raises_on_unique_table caching_on "2.8" FileManager
           sample_storage "img.png" false (Some 5) true no_kwargs stored_world).
  - reflexivity.
  - reflexivity.
  - intros s Hs. discriminate Hs.
  - apply NoDup_singleton.
Defined.

Lemma duplicates_raise_witness :
  exists evs,
    get_file caching_on "2.8" FileManager sample_storage "img.png" false None
      false no_kwargs duplicate_world
    = (Raise MultipleObjectsReturned, duplicate_world, evs)
    /\ count_events is_update evs = 0%nat
    /\ count_events is_cache_write evs = 0%nat.
Proof.
  apply (duplicates_raise_MultipleObjectsReturned caching_on "2.8" FileManager
           sample_storage "img.png" false None false no_kwargs duplicate_world
           sample_key sample_source (mkFile 2 "7a3f" "img.png" 8 None) []).
  - reflexivity.
  - reflexivity.
  - reflexivity.
  - right. right. reflexivity.
Defined.

Lemma get_file_only_caches_what_it_returns_witness :
  cache cached_world = cache stored_world
  \/ (caching_enabled caching_on = true
      /\ exists obj,
           Ok (Some sample_source) = Ok (Some obj)
           /\ cache cached_world
              = <[sample_key := mkEntry obj None]> (cache stored_world)).
Proof.
  apply (get_file_only_caches_what_it_returns caching_on "2.8" FileManager
           sample_storage "img.png" false None false no_kwargs stored_world
           sample_key (Ok (Some sample_source)) cached_world
           [EvCacheGet sample_key;
            EvGet FileManager false
              (mkKwargs (Some "7a3f") (Some "img.png") None None);
            EvCacheSet sample_key sample_source None]).
  - reflexivity.
  - vm_compute. reflexivity.
Defined.

Lemma read_path_leaves_the_returned_record_cached_witness :
  cache_lookup sample_key cached_world = Some sample_source.
Proof.
  apply (read_path_leaves_the_returned_record_cached caching_on "2.8"
           FileManager sample_storage "img.png" None false no_kwargs
           stored_world sample_key sample_source cached_world
           [EvCacheGet sample_key;
            EvGet FileManager false
              (mkKwargs (Some "7a3f") (Some "img.png") None None);
            EvCacheSet sample_key sample_source None]).
  - reflexivity.
  - reflexivity.
  - vm_compute. reflexivity.
Defined.

Lemma second_read_is_served_from_the_cache_witness :
  (forall ccm,
     get_file caching_on "2.8" FileManager sample_storage "img.png" false None
       ccm no_kwargs cached_world
     = (Ok (Some sample_source), cached_world, [EvCacheGet sample_key]))
  /\ (forall um ccm,
        exists o w2 evs2,
          get_file caching_on "2.8" FileManager sample_storage "img.png" false
            um ccm no_kwargs cached_world = (Ok (Some o), w2, evs2)
          /\ count_events is_lookup evs2 = 0%nat).
Proof.
  apply (second_read_is_served_from_the_cache caching_on "2.8" FileManager
           sample_storage "img.png" None false no_kwargs stored_world
           sample_key sample_source cached_world
           [EvCacheGet sample_key;
            EvGet FileManager false
              (mkKwargs (Some "7a3f") (Some "img.png") None None);
            EvCacheSet sample_key sample_source None]).
  - reflexivity.
  - reflexivity.
  - vm_compute. reflexivity.
Defined.

Lemma get_file_returns_None_witness :
  (exists wf evs,
     get_file caching_on "2.8" FileManager sample_storage "gone.png" false None
       true no_kwargs stored_world = (Ok None, wf, evs))
  <-> false = false
      /\ (caching_enabled caching_on = true ->
          cache_lookup "easy_thumbnails:2.8:FileManager:7a3f:gone.png"
            stored_world = None)
      /\ selected FileManager
           (kwargs_update no_kwargs (get_storage_hash sample_storage) "gone.png")
           stored_world = []
      /\ true && exists_ sample_storage "gone.png" = false.
Proof.
  apply (get_file_returns_None_exactly_when caching_on "2.8" FileManager
           sample_storage "gone.png" false None true no_kwargs stored_world
           "easy_thumbnails:2.8:FileManager:7a3f:gone.png");
    reflexivity.
Defined.

Lemma create_twice_creates_once_witness :
  exists obj,
    is_new_row
      (mkKwargs (Some "7a3f") (Some "img.png.50x50.jpg") (Some sample_source)
         (Some (mkDefaults (Some 5)))) 100 [] obj
    /\ get_file caching_on "2.8" ThumbnailManager sample_storage
         "img.png.50x50.jpg" true (Some 5) false
         (mkKwargs None None (Some sample_source) None) stored_world
       = (Ok (Some obj),
          mkWorld (mkDb [sample_source] [obj] []) ∅ 100,
          [EvGetOrCreate ThumbnailManager
             (mkKwargs (Some "7a3f") (Some "img.png.50x50.jpg")
                (Some sample_source) (Some (mkDefaults (Some 5)))) true])
    /\ get_file caching_on "2.8" ThumbnailManager sample_storage
         "img.png.50x50.jpg" true (Some 5) false
         (mkKwargs None None (Some sample_source) None)
         (mkWorld (mkDb [sample_source] [obj] []) ∅ 100)
       = (Ok (Some obj),
          mkWorld (mkDb [sample_source] [obj] []) ∅ 100,
          [EvGetOrCreate ThumbnailManager
             (mkKwargs (Some "7a3f") (Some "img.png.50x50.jpg")
                (Some sample_source) (Some (mkDefaults (Some 5)))) false]).
Proof.
  apply (create_twice_creates_once caching_on "2.8" ThumbnailManager
           sample_storage "img.png.50x50.jpg" (Some 5) false
           (mkKwargs None None (Some sample_source) None) stored_world).
  - reflexivity.
  - intros s [= <-]. exists sample_source.
    split; [apply list_elem_of_here|reflexivity].
  - reflexivity.
Defined.

Lemma without_cache_old_modified_witness :
  exists wf evs,
    get_file caching_off "2.8" FileManager sample_storage "img.png" false
      (Some 5) false no_kwargs stored_world = (Ok (Some sample_source), wf, evs)
    /\ table FileManager (db wf) = [set_modified 5 sample_source]
    /\ set_modified 5 sample_source ∈ table FileManager (db wf)
    /\ modified sample_source <> modified (set_modified 5 sample_source).
Proof.
  apply (without_cache_the_returned_record_keeps_old_modified caching_off
           "2.8" FileManager sample_storage "img.png" false 5 false no_kwargs
           stored_world sample_source); (reflexivity || discriminate).
Defined.

Lemma delete_cache_key_then_read_witness :
  exists w1,
    _delete_cache_key caching_on "2.8" FileManager
      (kwargs_update no_kwargs "7a3f" "img.png")
      (mkWorld (mkDb [sample_source] [] [])
               {[ sample_key := mkEntry (mkFile 9 "7a3f" "img.png" 0 None) None ]}
               100)
    = (Ok tt, w1, [EvCacheDelete sample_key])
    /\ cache_lookup sample_key w1 = None
    /\ (get_file caching_on "2.8" FileManager sample_storage "img.png" false
          None false no_kwargs w1).1.1 = Ok (Some sample_source).
Proof.
  destruct (delete_cache_key_then_read_returns_the_stored_row caching_on "2.8"
              FileManager sample_storage "img.png" false no_kwargs
              (mkWorld (mkDb [sample_source] [] [])
                 {[ sample_key :=
                      mkEntry (mkFile 9 "7a3f" "img.png" 0 None) None ]}
                 100)
              sample_key sample_source)
    as (w1 & Hdel & _ & Hgone & _ & Hread); [reflexivity..|].
  exists w1. split; [exact Hdel|]. split; [exact Hgone|]. by rewrite Hread.
Defined.

Lemma without_THUMBNAIL_CACHE_witness :
  exists rs wf evs,
    import_then_resolve caching_off "2.8"
      (mkDjango (Raise ImportError) (fun alias => Raise (KeyError alias)))
      (mkDb [sample_source] [] []) 100
      [mkCall FileManager sample_storage "img.png" false (Some 5) false no_kwargs;
       mkCall FileManager sample_storage "new.png" true None false no_kwargs]
    = (Ok (rs, wf), evs)
    /\ length rs = 2%nat
    /\ cache wf = ∅
    /\ count_events is_cache_event evs = 0%nat.
Proof.
  apply (without_THUMBNAIL_CACHE_no_cache_is_ever_called caching_off "2.8"
           (mkDjango (Raise ImportError) (fun alias => Raise (KeyError alias)))
           (mkDb [sample_source] [] []) 100
           [mkCall FileManager sample_storage "img.png" false (Some 5) false
              no_kwargs;
            mkCall FileManager sample_storage "new.png" true None false
              no_kwargs]).
  reflexivity.
Defined.

Lemma linked_world_has_integrity : referential_integrity (db linked_world).
Proof.
  split; intros ? ->%list_elem_of_singleton; eexists;
    (split; [apply list_elem_of_here|reflexivity]).
Qed.

Lemma get_file_keeps_referential_integrity_witness :
  referential_integrity
    (db (get_file caching_on "2.8" ThumbnailManager sample_storage
           "img.png.50x50.jpg" true None false
           (mkKwargs None None (Some sample_source) None) linked_world).1.2).
Proof.
  eapply (get_file_keeps_referential_integrity caching_on "2.8" ThumbnailManager
            sample_storage "img.png.50x50.jpg" true None false
            (mkKwargs None None (Some sample_source) None) linked_world
            _ _ _ linked_world_has_integrity).
  - intros s [= <-]. exists sample_source.
    split; [apply list_elem_of_here|reflexivity].
  - apply get_file_run_eq.
Defined.

Lemma cascading_delete_keeps_referential_integrity_witness :
  exists d2,
    Source_delete 1 (db linked_world) = Ok d2 /\ referential_integrity d2.
Proof.
  apply (cascading_delete_keeps_referential_integrity 1 (db linked_world)
           linked_world_has_integrity).
Defined.

Lemma cache_keys_identify_the_file_witness :
  (FileManager_key "2.8" "7a3f" "a:b.png" = FileManager_key "2.8" "9bc0" "b.png" ->
   "7a3f" = "9bc0" /\ "a:b.png" = "b.png")
  /\ (ThumbnailManager_key "2.8" "7a3f" "a:b.png" 12
      = ThumbnailManager_key "2.8" "9bc0" "b.png" 3 ->
      "7a3f" = "9bc0" /\ "a:b.png" = "b.png" /\ 12 = 3).
Proof.
  apply (cache_keys_identify_the_file "2.8" "7a3f" "a:b.png" 12 "9bc0" "b.png" 3);
    reflexivity.
Defined.

Lemma ThumbnailDimensions_str_determines_size_witness :
  size (mkDims 1 1 (Some 100%N) None) = size (mkDims 2 7 (Some 100%N) None).
Proof.
  apply (ThumbnailDimensions_str_determines_size
           (mkDims 1 1 (Some 100%N) None) (mkDims 2 7 (Some 100%N) None)).
  vm_compute. reflexivity.
Defined.

Lemma dimensions_are_joined_only_for_thumbnails_witness :
  false = false /\ ThumbnailManager = ThumbnailManager
  /\ true = THUMBNAIL_CACHE_DIMENSIONS (mkSettings (Some "default") true true).
Proof.
  apply (dimensions_are_joined_only_for_thumbnails
           (mkSettings (Some "default") true true) "2.8" ThumbnailManager
           sample_storage "img.png.100x100.jpg" false None false
           (mkKwargs None None (Some sample_source) None) linked_world
           _ _ _ ThumbnailManager true
           (mkKwargs (Some "7a3f") (Some "img.png.100x100.jpg")
              (Some sample_source) None)
           (get_file_run_eq _ _ _ _ _ _ _ _ _ _)).
  vm_compute. apply list_elem_of_further, list_elem_of_here.
Defined.

Lemma storage_is_asked_only_after_both_miss_witness :
  "img.png" = "img.png" /\ false = false /\ true = true
  /\ (caching_enabled caching_on = true ->
      cache_lookup sample_key empty_world = None)
  /\ selected FileManager
       (kwargs_update no_kwargs (get_storage_hash sample_storage) "img.png")
       empty_world = [].
Proof.
  apply (storage_is_asked_only_after_both_miss caching_on "2.8" FileManager
           sample_storage "img.png" false None true no_kwargs empty_world
           sample_key _ _ _ "img.png" eq_refl
           (get_file_run_eq _ _ _ _ _ _ _ _ _ _)).
  vm_compute. do 2 apply list_elem_of_further. apply list_elem_of_here.
Defined.

Lemma colon_free_versions_never_collide_witness :
  "easy_thumbnails:" +:+ "2.8" +:+ key_suffix FileManager "7a3f" "a.png" 0
  <> "easy_thumbnails:" +:+ "2.9" +:+ key_suffix ThumbnailManager "9bc0" "b.png" 4.
Proof.
  apply (colon_free_versions_never_collide "2.8" "2.9" FileManager "7a3f"
           "a.png" 0 ThumbnailManager "9bc0" "b.png" 4);
    (reflexivity || discriminate).
Defined.
